(** * tertest.cpp: the native probe library of TerminatorTest

    A shallow embedding of [src/TerminatorTest/src/main/cpp/tertest.cpp]
    and the properties its specification states about it.

    The library exports five small functions for a hooking tool to
    intercept, a driver [run_all_tests] that calls each of them once and
    logs what it expected and what it saw, and a load-time constructor
    that starts the driver on a detached thread after three seconds.

    Conventions of the model:
    - [int] is the 32-bit two's-complement integer of the Android ABIs,
      carried by [Z] with the wrap-around written out;
    - [double] is IEEE 754 binary64, carried by [spec_float];
    - pointers are either null, the address of a string literal, the
      address of an object in a store of typed objects, or the address of
      the global counter; an [int*] may designate any [int] there is: one
      of its own, the first member of a record or of a [TestClass], the
      counter;
    - functions that touch memory or the log are state transformers that
      may fault: a pointer is dereferenced that designates no object of
      the type accessed, which C++ leaves undefined;
    - no hook is installed: every call reaches the definition given in
      the source file. *)

From Stdlib Require Import ZArith Lia String Ascii.
From Stdlib Require Import Floats.SpecFloat.
From stdpp Require Import base option list.

Open Scope Z_scope.

(* ===================================================================== *)
(** ** Machine integers *)
(* ===================================================================== *)

Module Int.

Definition min_signed : Z := - 2 ^ 31.
Definition max_signed : Z := 2 ^ 31 - 1.
Definition modulus : Z := 2 ^ 32.

(** The values an [int] can hold. *)
Definition in_range (z : Z) : Prop := min_signed <= z <= max_signed.

Definition in_rangeb (z : Z) : bool :=
  (min_signed <=? z) && (z <=? max_signed).

(** The representative of [z] modulo 2^32 in the signed range: what the
    32 result bits of an [add] or [mul] instruction denote.  C++ leaves
    signed overflow undefined; the generated code for the surfaces below
    is a single machine instruction, which wraps. *)
Definition wrap (z : Z) : Z :=
  (z - min_signed) mod modulus + min_signed.

Definition add (a b : Z) : Z := wrap (a + b).
Definition mul (a b : Z) : Z := wrap (a * b).

End Int.

(* ===================================================================== *)
(** ** Doubles *)
(* ===================================================================== *)

Module Double.

Definition prec : Z := 53.
Definition emax : Z := 1024.

Definition double : Type := spec_float.

(** The double nearest to [m * 2^e]. *)
Definition of_scaled (m e : Z) : double := binary_normalize prec emax m e false.

Definition mul (x y : double) : double := SFmul prec emax x y.

(** The literals of the source file. *)
Definition lit_2_0 : double := of_scaled 2 0.
Definition lit_42_5 : double := of_scaled 85 (-1).
Definition lit_85_0 : double := of_scaled 85 0.

End Double.

Abbreviation double := Double.double.

(* ===================================================================== *)
(** ** Pointers, objects and the process state *)
(* ===================================================================== *)

Open Scope string_scope.
Open Scope list_scope.

Definition loc : Type := nat.

(** A pointer value: null, the address of a string literal (read-only
    storage, identified by its contents), the address of an object in the
    store, or the address of the global counter, [&g_test_variable]. *)
Inductive ptr : Type :=
  | nullptr
  | literal (s : string)
  | address (l : loc)
  | addr_g_test_variable.

Arguments address l%_nat.

(** The truth value of a pointer in [if (p)]. *)
Definition is_present (p : ptr) : bool :=
  match p with
  | nullptr => false
  | _ => true
  end.

Record TestData : Type := mkTestData { id : Z; value : double }.

Record TestClass : Type := mkTestClass { m_value : Z }.

(** What a storage location holds. *)
Inductive object : Type :=
  | Uninit
  | ObjInt (n : Z)
  | ObjTestData (d : TestData)
  | ObjTestClass (c : TestClass)
  | ObjChars (s : string).

Inductive priority : Type := ANDROID_LOG_INFO.

Definition LOG_TAG : string := "NativeTestLib".

(** A variadic argument as passed to the logger, and as the sink keeps it
    once the logger has read the string a [%s] argument points to. *)
Inductive vararg : Type :=
  | VInt (n : Z)
  | VDouble (d : double)
  | VStr (p : ptr).

Inductive logged : Type :=
  | LInt (n : Z)
  | LDouble (d : double)
  | LStr (s : string).

Record log_entry : Type := mkEntry {
  prio : priority;
  tag : string;
  fmt : string;
  args : list logged
}.

(** The five exported probe surfaces. *)
Inductive surface : Type :=
  | Simple
  | StructByPointer
  | PointerArgs
  | InstanceMethod
  | StaticMethod.

Record state : Type := mkState {
  g_test_variable : Z;
  objects : list object;       (* storage, addressed by position *)
  logcat : list log_entry;     (* the platform log sink, oldest first *)
  calls : list surface         (* probe surfaces entered so far, oldest first *)
}.

Definition set_objects (o : list object) (s : state) : state :=
  mkState (g_test_variable s) o (logcat s) (calls s).

Definition set_logcat (l : list log_entry) (s : state) : state :=
  mkState (g_test_variable s) (objects s) l (calls s).

Definition set_calls (c : list surface) (s : state) : state :=
  mkState (g_test_variable s) (objects s) (logcat s) c.

Definition set_global (g : Z) (s : state) : state :=
  mkState g (objects s) (logcat s) (calls s).

(** The global as the load of the library leaves it:
    [int g_test_variable = 100;]. *)
Definition g_test_variable_init : Z := 100.

Definition loaded_state : state := mkState g_test_variable_init [] [] [].

(* ===================================================================== *)
(** ** Computations that may fault *)
(* ===================================================================== *)

Inductive outcome (A : Type) : Type :=
  | Ok (a : A) (s : state)
  | Fault.

Arguments Ok {A} a s.
Arguments Fault {A}.

Definition M (A : Type) : Type := state -> outcome A.

Definition ret {A} (a : A) : M A := fun s => Ok a s.

Definition bind {A B} (m : M A) (k : A -> M B) : M B :=
  fun s => match m s with
           | Ok a s' => k a s'
           | Fault => Fault
           end.

Definition fault {A} : M A := fun _ => Fault.

Declare Scope M_scope.
Delimit Scope M_scope with M.
Bind Scope M_scope with M.

Notation "x <- c1 ;; c2" := (bind c1 (fun x => c2))
  (at level 100, c1 at next level, c2 at level 200, right associativity) : M_scope.
Notation "c1 ;; c2" := (bind c1 (fun _ => c2))
  (at level 100, c2 at level 200, right associativity) : M_scope.

Open Scope M_scope.

Definition modify (f : state -> state) : M unit := fun s => Ok tt (f s).

(** *** Memory *)

Definition load (p : ptr) : M object :=
  fun s => match p with
           | address l =>
               match objects s !! l with
               | Some o => Ok o s
               | None => Fault
               end
           | _ => Fault
           end.

(** Overwrite the object at [p]; there must be storage there. *)
Definition store (p : ptr) (o : object) : M unit :=
  fun s => match p with
           | address l =>
               match objects s !! l with
               | Some _ => Ok tt (set_objects (<[l := o]> (objects s)) s)
               | None => Fault
               end
           | _ => Fault
           end.

(** Reading an [int] through an [int*].  The pointer may designate a
    stand-alone [int], the first member of a record or of a [TestClass]
    (an object and its first member share their address), or the global
    counter. *)
Definition load_int (p : ptr) : M Z :=
  fun s => match p with
           | addr_g_test_variable => Ok (g_test_variable s) s
           | address l =>
               match objects s !! l with
               | Some (ObjInt n) => Ok n s
               | Some (ObjTestData d) => Ok (id d) s
               | Some (ObjTestClass c) => Ok (m_value c) s
               | _ => Fault
               end
           | _ => Fault
           end.

Definition load_TestData (p : ptr) : M TestData :=
  o <- load p ;; match o with ObjTestData d => ret d | _ => fault end.

Definition load_TestClass (p : ptr) : M TestClass :=
  o <- load p ;; match o with ObjTestClass c => ret c | _ => fault end.

(** Writing an [int] through an [int*]: [*p = n]. *)
Definition store_int (p : ptr) (n : Z) : M unit :=
  fun s => match p with
           | addr_g_test_variable => Ok tt (set_global n s)
           | address l =>
               match objects s !! l with
               | Some (ObjInt _) =>
                   Ok tt (set_objects (<[l := ObjInt n]> (objects s)) s)
               | Some (ObjTestData d) =>
                   Ok tt (set_objects
                            (<[l := ObjTestData (mkTestData n (value d))]>
                               (objects s)) s)
               | Some (ObjTestClass _) =>
                   Ok tt (set_objects
                            (<[l := ObjTestClass (mkTestClass n)]> (objects s)) s)
               | _ => Fault
               end
           | _ => Fault
           end.

Definition store_TestData (p : ptr) (d : TestData) : M unit :=
  _ <- load_TestData p ;; store p (ObjTestData d).

(** The characters a [const char*] designates. *)
Definition read_cstr (p : ptr) : M string :=
  match p with
  | literal s => ret s
  | _ => o <- load p ;; match o with ObjChars s => ret s | _ => fault end
  end.

(** Automatic storage: a local variable is pushed on entry to its scope
    and the frame is cut back when the function returns. *)
Definition alloca (o : object) : M ptr :=
  fun s => Ok (address (length (objects s)))
              (set_objects (objects s ++ [o]) s).

Definition frame_enter : M nat := fun s => Ok (length (objects s)) s.

Definition frame_leave (sp : nat) : M unit :=
  modify (fun s => set_objects (take sp (objects s)) s).

(** *** Logging *)

Definition read_vararg (v : vararg) : M logged :=
  match v with
  | VInt n => ret (LInt n)
  | VDouble d => ret (LDouble d)
  | VStr p => s <- read_cstr p ;; ret (LStr s)
  end.

Fixpoint read_varargs (vs : list vararg) : M (list logged) :=
  match vs with
  | [] => ret []
  | v :: vs' => a <- read_vararg v ;; r <- read_varargs vs' ;; ret (a :: r)
  end.

(** [LOG_I(fmt, ...)], that is
    [__android_log_print(ANDROID_LOG_INFO, LOG_TAG, fmt, ...)]. *)
Definition LOG_I (format : string) (vs : list vararg) : M unit :=
  a <- read_varargs vs ;;
  modify (fun s => set_logcat (logcat s ++ [mkEntry ANDROID_LOG_INFO LOG_TAG format a]) s).

(** Entering a probe surface from a call site. *)
Definition invoke {A} (f : surface) (body : M A) : M A :=
  modify (fun s => set_calls (calls s ++ [f]) s) ;; body.

(* ===================================================================== *)
(** ** The probe surfaces *)
(* ===================================================================== *)

(** [extern "C" int test_simple_function(int a, int b)] *)
Definition test_simple_function (a b : Z) : M Z :=
  ret (Int.add a b).

(** [extern "C" void test_struct_by_pointer(TestData* data)] *)
Definition test_struct_by_pointer (data : ptr) : M unit :=
  if is_present data then
    (* data->id += 1; *)
    d <- load_TestData data ;;
    store_TestData data (mkTestData (Int.add (id d) 1) (value d)) ;;
    (* data->value *= 2.0; *)
    d <- load_TestData data ;;
    store_TestData data (mkTestData (id d) (Double.mul (value d) Double.lit_2_0))
  else ret tt.

(** [extern "C" const char* test_pointer_args(const char* input_str, int* out_val)] *)
Definition test_pointer_args (input_str out_val : ptr) : M ptr :=
  (if is_present out_val then store_int out_val 500 else ret tt) ;;
  ret input_str.

(** [TestClass::TestClass(int initial) : m_value(initial)], run on the
    storage [this] reserved by the caller. *)
Definition TestClass_ctor (this : ptr) (initial : Z) : M unit :=
  store this (ObjTestClass (mkTestClass initial)) ;;
  c <- load_TestClass this ;;
  LOG_I "TestClass instance created with m_value = %d" [VInt (m_value c)].

(** [int TestClass::instance_method(int multiplier)] *)
Definition instance_method (this : ptr) (multiplier : Z) : M Z :=
  c <- load_TestClass this ;;
  ret (Int.mul (m_value c) multiplier).

(** [static const char* TestClass::static_method()] *)
Definition static_method : M ptr :=
  ret (literal "Original static string").

(* ===================================================================== *)
(** ** The driver *)
(* ===================================================================== *)

Definition run_all_tests : M unit :=
  sp <- frame_enter ;;
  LOG_I "--- Running Native Tests ---" [] ;;

  LOG_I "[Test 1] Calling test_simple_function(5, 7). Expected result: 12" [] ;;
  simple_result <- invoke Simple (test_simple_function 5 7) ;;
  LOG_I "[Test 1] Actual result: %d. (Hook should change this to 35)"
        [VInt simple_result] ;;

  data <- alloca (ObjTestData (mkTestData 10 Double.lit_42_5)) ;;
  LOG_I "[Test 2] Calling test_struct_by_pointer. Initial values: id=10, value=42.5" [] ;;
  LOG_I "[Test 2] Expected values after call: id=11, value=85.0" [] ;;
  invoke StructByPointer (test_struct_by_pointer data) ;;
  d <- load_TestData data ;;
  LOG_I "[Test 2] Actual values after call: id=%d, value=%f. (Hook should change these to -20, -3.14)"
        [VInt (id d); VDouble (value d)] ;;

  out_val <- alloca (ObjInt 0) ;;
  LOG_I "[Test 3] Calling test_pointer_args. Expected out_val: 500" [] ;;
  invoke PointerArgs (test_pointer_args (literal "Hello from C++") out_val) ;;
  out <- load_int out_val ;;
  LOG_I "[Test 3] Actual out_val: %d. (Hook should change this to 999)" [VInt out] ;;

  instance <- alloca Uninit ;;
  TestClass_ctor instance 42 ;;
  LOG_I "[Test 4] Calling instance.instance_method(10). Expected result: 420" [] ;;
  instance_result <- invoke InstanceMethod (instance_method instance 10) ;;
  LOG_I "[Test 4] Actual result: %d. (Hook should change this to 1337)"
        [VInt instance_result] ;;

  LOG_I "[Test 5] Calling TestClass::static_method(). Expected result: 'Original static string'" [] ;;
  static_result <- invoke StaticMethod static_method ;;
  LOG_I "[Test 5] Actual result: '%s'. (Hook should change this)" [VStr static_result] ;;

  LOG_I "--- Native Tests Finished ---" [] ;;
  frame_leave sp.

(* ===================================================================== *)
(** ** Threads and the load-time constructor *)
(* ===================================================================== *)

(** The body of a thread: straight-line code cut at its blocking calls. *)
Inductive task : Type :=
  | TReturn
  | TRun (m : M unit) (k : task)
  | TSleepFor (seconds : nat) (k : task).

Inductive thread : Type :=
  | Running (t : task)
  | Asleep (wake : nat) (k : task)   (* inside [sleep_for], until the clock reaches [wake] *)
  | Exited.

(** The library's view of its host process: the memory and log, a clock
    counting seconds, and the threads the library has started.  All of
    them are detached: nothing holds a handle to join or restart one. *)
Record process : Type := mkProcess {
  mach : state;
  clock : nat;
  pool : list thread
}.

(** [void test_runner_thread_func()] *)
Definition test_runner_thread_func : task :=
  TRun (LOG_I "Test runner thread started. Waiting..." [])
  (TSleepFor 3   (* std::this_thread::sleep_for(std::chrono::seconds(3)) *)
  (TRun (LOG_I "Starting native tests now." [])
  (TRun run_all_tests
   TReturn))).

(** [std::thread t(f); t.detach();] *)
Definition spawn_detached (f : task) (w : process) : process :=
  mkProcess (mach w) (clock w) (pool w ++ [Running f]).

(** [__attribute__((constructor)) void on_library_load()], run by the
    loader.  [None] when the logger faults. *)
Definition on_library_load (w : process) : option process :=
  match LOG_I "libnativetest.so loaded. Spawning test runner thread." [] (mach w) with
  | Ok _ s' => Some (spawn_detached test_runner_thread_func
                                    (mkProcess s' (clock w) (pool w)))
  | Fault => None
  end.

(** One scheduling step of thread [i].  A sleeping thread can only move
    once the clock has reached its wake-up time; an exited thread never
    moves; a fault ends the process (no successor). *)
Definition step_thread (i : nat) (w : process) : option process :=
  match pool w !! i with
  | Some (Running (TRun m k)) =>
      match m (mach w) with
      | Ok _ s' => Some (mkProcess s' (clock w) (<[i := Running k]> (pool w)))
      | Fault => None
      end
  | Some (Running (TSleepFor d k)) =>
      Some (mkProcess (mach w) (clock w)
                      (<[i := Asleep (clock w + d)%nat k]> (pool w)))
  | Some (Running TReturn) =>
      Some (mkProcess (mach w) (clock w) (<[i := Exited]> (pool w)))
  | Some (Asleep t k) =>
      if (t <=? clock w)%nat
      then Some (mkProcess (mach w) (clock w) (<[i := Running k]> (pool w)))
      else None
  | Some Exited => None
  | None => None
  end.

(** What can happen next: a thread is scheduled, or a second passes. *)
Inductive event : Type :=
  | Sched (i : nat)
  | Tick.

Arguments Sched i%_nat.

Definition step (e : event) (w : process) : option process :=
  match e with
  | Sched i => step_thread i w
  | Tick => Some (mkProcess (mach w) (S (clock w)) (pool w))
  end.

Fixpoint run_schedule (es : list event) (w : process) : option process :=
  match es with
  | [] => Some w
  | e :: es' =>
      match step e w with
      | Some w' => run_schedule es' w'
      | None => None
      end
  end.

(** The host process at the moment the loader maps the library: the
    library has started no thread yet. *)
Definition host (s : state) (now : nat) : process := mkProcess s now [].

(* ===================================================================== *)
(** ** Reading the log *)
(* ===================================================================== *)

(** [contains needle hay]: [needle] occurs in [hay]. *)
Fixpoint contains (needle hay : string) : bool :=
  String.prefix needle hay ||
  match hay with
  | EmptyString => false
  | String _ rest => contains needle rest
  end.

Definition is_expected (e : log_entry) : bool := contains "Expected" (fmt e).
Definition is_actual (e : log_entry) : bool := contains "Actual" (fmt e).

(** The [N] of a line that starts with ["[Test N]"]. *)
Definition test_number (e : log_entry) : option ascii :=
  if String.prefix "[Test " (fmt e) then String.get 6 (fmt e) else None.

(** The five surfaces in the order the driver enters them. *)
Definition driver_calls : list surface :=
  [Simple; StructByPointer; PointerArgs; InstanceMethod; StaticMethod].

(** The lines one run of the driver appends to the log. *)
Definition info (format : string) (a : list logged) : log_entry :=
  mkEntry ANDROID_LOG_INFO LOG_TAG format a.

Definition driver_lines : list log_entry :=
  [ info "--- Running Native Tests ---" [];
    info "[Test 1] Calling test_simple_function(5, 7). Expected result: 12" [];
    info "[Test 1] Actual result: %d. (Hook should change this to 35)" [LInt 12];
    info "[Test 2] Calling test_struct_by_pointer. Initial values: id=10, value=42.5" [];
    info "[Test 2] Expected values after call: id=11, value=85.0" [];
    info "[Test 2] Actual values after call: id=%d, value=%f. (Hook should change these to -20, -3.14)"
         [LInt 11; LDouble Double.lit_85_0];
    info "[Test 3] Calling test_pointer_args. Expected out_val: 500" [];
    info "[Test 3] Actual out_val: %d. (Hook should change this to 999)" [LInt 500];
    info "TestClass instance created with m_value = %d" [LInt 42];
    info "[Test 4] Calling instance.instance_method(10). Expected result: 420" [];
    info "[Test 4] Actual result: %d. (Hook should change this to 1337)" [LInt 420];
    info "[Test 5] Calling TestClass::static_method(). Expected result: 'Original static string'" [];
    info "[Test 5] Actual result: '%s'. (Hook should change this)" [LStr "Original static string"];
    info "--- Native Tests Finished ---" [] ].

(* ===================================================================== *)
(** ** Sequences of calls from outside *)
(* ===================================================================== *)

(** One call of a probe surface or of the driver, with its arguments. *)
Inductive operation : Type :=
  | CallSimple (a b : Z)
  | CallStructByPointer (data : ptr)
  | CallPointerArgs (input_str out_val : ptr)
  | CallInstanceMethod (this : ptr) (multiplier : Z)
  | CallStaticMethod
  | CallDriver.

Definition perform (o : operation) : M unit :=
  match o with
  | CallSimple a b => test_simple_function a b ;; ret tt
  | CallStructByPointer data => test_struct_by_pointer data
  | CallPointerArgs input_str out_val => test_pointer_args input_str out_val ;; ret tt
  | CallInstanceMethod this multiplier => instance_method this multiplier ;; ret tt
  | CallStaticMethod => static_method ;; ret tt
  | CallDriver => run_all_tests
  end.

Fixpoint perform_all (os : list operation) : M unit :=
  match os with
  | [] => ret tt
  | o :: os' => perform o ;; perform_all os'
  end.

(* ===================================================================== *)
(** ** References that refer to something *)
(* ===================================================================== *)

(** What [p] points to, if it is the address of a live object. *)
Definition target (s : state) (p : ptr) : option object :=
  match p with
  | address l => objects s !! l
  | _ => None
  end.


Definition holds_TestData (s : state) (p : ptr) : bool :=
  match target s p with Some (ObjTestData _) => true | _ => false end.

Definition holds_TestClass (s : state) (p : ptr) : bool :=
  match target s p with Some (ObjTestClass _) => true | _ => false end.

(** [p] designates an [int]: a stand-alone one, the first member of a
    record or of a [TestClass], or the global counter. *)
Definition designates_int (s : state) (p : ptr) : bool :=
  match p with
  | addr_g_test_variable => true
  | _ => match target s p with
         | Some (ObjInt _) | Some (ObjTestData _) | Some (ObjTestClass _) => true
         | _ => false
         end
  end.

(** The object [o] with [n] written to the [int] at its address, if there
    is one: the object itself or its first member. *)
Definition with_first_int (o : object) (n : Z) : option object :=
  match o with
  | ObjInt _ => Some (ObjInt n)
  | ObjTestData d => Some (ObjTestData (mkTestData n (value d)))
  | ObjTestClass _ => Some (ObjTestClass (mkTestClass n))
  | _ => None
  end.

(** An optional reference: absent, or present and referring to an object
    of the expected type. *)
Definition optional_ref (holds : state -> ptr -> bool) (s : state) (p : ptr) : bool :=
  negb (is_present p) || holds s p.

(** The text that follows the first occurrence of [needle] in [hay]. *)
Fixpoint after (needle hay : string) : option string :=
  if String.prefix needle hay
  then Some (String.substring (String.length needle)
                              (String.length hay - String.length needle) hay)
  else match hay with
       | EmptyString => None
       | String _ rest => after needle rest
       end.

(** The value an "Expected ...: value" line announces. *)
Definition expected_text (e : log_entry) : option string :=
  match after "Expected" (fmt e) with
  | Some rest => after ": " rest
  | None => None
  end.

(** The state after [m], when [m] returns. *)
Definition map_state {A} (f : state -> state) (r : outcome A) : outcome A :=
  match r with
  | Ok a s => Ok a (f s)
  | Fault => Fault
  end.

(** The "Expected" lines and the "Actual" lines of a stretch of log, and
    the two together, each in log order. *)
Definition expectations (lines : list log_entry) : list log_entry :=
  List.filter is_expected lines.

Definition observations (lines : list log_entry) : list log_entry :=
  List.filter is_actual lines.

Definition reports (lines : list log_entry) : list log_entry :=
  List.filter (fun e => is_expected e || is_actual e) lines.

(** [m] neither reads nor writes the global counter: started with another
    value in the counter it does the same, and leaves that value there. *)
Definition ignores_global {A} (m : M A) : Prop :=
  forall g s, m (set_global g s) = map_state (set_global g) (m s).

(* ===================================================================== *)
(** ** Sample states *)
(* ===================================================================== *)

(** A store holding the record of the driver: identifier 10,
    measurement 42.5. *)
Definition record_10 : state :=
  mkState g_test_variable_init
          [ObjTestData (mkTestData 10 Double.lit_42_5)] [] [].

(** A store with one record whose identifier is the largest [int]. *)
Definition record_at_max : state :=
  mkState g_test_variable_init
          [ObjTestData (mkTestData 2147483647 Double.lit_42_5)] [] [].


(** A store with raw storage for one object, not yet constructed. *)
Definition raw_storage : state :=
  mkState g_test_variable_init [Uninit] [] [].

(** A store with a record, an [int] and a constructed [TestClass]. *)
Definition one_of_each : state :=
  mkState g_test_variable_init
          [ObjTestData (mkTestData 10 Double.lit_42_5); ObjInt 0;
           ObjTestClass (mkTestClass 65536)] [] [].

(** A sequence of calls that touches every surface and runs the driver
    twice, on the store [one_of_each]. *)
Definition sample_calls : list operation :=
  [ CallSimple 5 7;
    CallStructByPointer (address 0);
    CallStructByPointer nullptr;
    CallPointerArgs (literal "Hello from C++") (address 1);
    CallInstanceMethod (address 2) 10;
    CallStaticMethod;
    CallDriver;
    CallDriver ].

(* ===================================================================== *)
(** ** The life of the background thread *)
(* ===================================================================== *)

Definition with_log (lines : list log_entry) (s : state) : state :=
  set_logcat (logcat s ++ lines) s.

(** The state once the driver has run on top of [lines]. *)
Definition after_driver (lines : list log_entry) (s : state) : state :=
  set_calls (calls s ++ driver_calls) (with_log (lines ++ driver_lines) s).

Definition loader_line : log_entry :=
  info "libnativetest.so loaded. Spawning test runner thread." [].
Definition started_line : log_entry :=
  info "Test runner thread started. Waiting..." [].
Definition starting_line : log_entry :=
  info "Starting native tests now." [].

(** What is left of a task after its first step. *)
Definition rest (t : task) : task :=
  match t with
  | TReturn => TReturn
  | TRun _ k => k
  | TSleepFor _ k => k
  end.

(** The processes a host can be in once it has loaded the library from
    state [s] at time [now]: the one thread of the library is at one of
    seven points of [test_runner_thread_func]. *)
Inductive runner_phase (s : state) (now : nat) : process -> Prop :=
  | phase_spawned c :
      (now <= c)%nat ->
      runner_phase s now
        (mkProcess (with_log [loader_line] s) c
                   [Running test_runner_thread_func])
  | phase_started c :
      (now <= c)%nat ->
      runner_phase s now
        (mkProcess (with_log [loader_line; started_line] s) c
                   [Running (rest test_runner_thread_func)])
  | phase_asleep c0 c :
      (now <= c0)%nat -> (c0 <= c)%nat ->
      runner_phase s now
        (mkProcess (with_log [loader_line; started_line] s) c
                   [Asleep (c0 + 3) (rest (rest test_runner_thread_func))])
  | phase_awake c :
      (now + 3 <= c)%nat ->
      runner_phase s now
        (mkProcess (with_log [loader_line; started_line] s) c
                   [Running (rest (rest test_runner_thread_func))])
  | phase_announced c :
      (now + 3 <= c)%nat ->
      runner_phase s now
        (mkProcess (with_log [loader_line; started_line; starting_line] s) c
                   [Running (rest (rest (rest test_runner_thread_func)))])
  | phase_driven c :
      (now + 3 <= c)%nat ->
      runner_phase s now
        (mkProcess (after_driver [loader_line; started_line; starting_line] s) c
                   [Running TReturn])
  | phase_exited c :
      (now + 3 <= c)%nat ->
      runner_phase s now
        (mkProcess (after_driver [loader_line; started_line; starting_line] s) c
                   [Exited]).

(** [w'] can be reached from [w]. *)
Definition reaches (w w' : process) : Prop :=
  exists es, run_schedule es w = Some w'.

(** A schedule that lets the thread run to its end at the earliest. *)
Definition eager_schedule : list event :=
  [Sched 0; Sched 0; Tick; Tick; Tick; Sched 0; Sched 0; Sched 0; Sched 0].

(* ===================================================================== *)
(** ** Callers from outside the library *)
(* ===================================================================== *)

(** [for (k = 0; k < n; k++) m;] *)
Fixpoint times (n : nat) (m : M unit) : M unit :=
  match n with
  | O => ret tt
  | S n' => m ;; times n' m
  end.

(** [n] doublings of a double, one after the other. *)
Fixpoint doubled (n : nat) (v : double) : double :=
  match n with
  | O => v
  | S n' => doubled n' (Double.mul v Double.lit_2_0)
  end.

(** Twice a double, written out on its representation: a normal number
    gets the next exponent (infinity from the largest exponent on), a
    subnormal number a mantissa shifted by one bit; zeros, infinities and
    NaN are their own doubles. *)
Definition exactly_twice (v : double) : double :=
  match v with
  | S754_finite sgn m e =>
      if (digits2_pos m =? 53)%positive
      then if (e <=? 970)%Z then S754_finite sgn m (e + 1) else S754_infinity sgn
      else S754_finite sgn m~0 e
  | _ => v
  end.

(** A finite double as a multiple of the smallest positive double,
    2^-1074. *)
Definition ulps (v : double) : Z :=
  match v with
  | S754_finite sgn m e => (if sgn then -1 else 1) * (Zpos m * 2 ^ (e + 1074))
  | _ => 0
  end.

Definition is_finite (v : double) : bool :=
  match v with
  | S754_finite _ _ _ | S754_zero _ => true
  | _ => false
  end.

(** The kind of object a location holds; the [int]s in it may change, the
    kind and the characters of a string may not. *)
Definition same_kind (o o' : object) : bool :=
  match o, o' with
  | Uninit, Uninit => true
  | ObjInt _, ObjInt _ => true
  | ObjTestData _, ObjTestData _ => true
  | ObjTestClass _, ObjTestClass _ => true
  | ObjChars s, ObjChars s' => String.eqb s s'
  | _, _ => false
  end.

(** [s'] has the objects of [s] at the same places, up to the contents of
    [int]s and records. *)
Definition same_shape (s s' : state) : Prop :=
  forall l : loc, match objects s !! l, objects s' !! l with
            | Some o, Some o' => same_kind o o' = true
            | None, None => True
            | _, _ => False
            end.

Definition ptr_eqb (p q : ptr) : bool :=
  match p, q with
  | nullptr, nullptr => true
  | literal a, literal b => String.eqb a b
  | address l, address l' => Nat.eqb l l'
  | addr_g_test_variable, addr_g_test_variable => true
  | _, _ => false
  end.

(** [o] hands [p] to its callee as a pointer the callee dereferences:
    [data], [out_val] or [this].  ([input_str] is only passed back.) *)
Definition hands_over (p : ptr) (o : operation) : bool :=
  match o with
  | CallStructByPointer data => ptr_eqb data p
  | CallPointerArgs _ out_val => ptr_eqb out_val p
  | CallInstanceMethod this _ => ptr_eqb this p
  | _ => false
  end.

(** No call of [os] is handed the address of the global counter. *)
Definition spares_counter (os : list operation) : bool :=
  forallb (fun o => negb (hands_over addr_g_test_variable o)) os.

(** [o] passes [p] as the output parameter of the echo surface. *)
Definition writes_through (p : ptr) (o : operation) : bool :=
  match o with
  | CallPointerArgs _ out_val => ptr_eqb out_val p
  | _ => false
  end.

(** Every reference [o] passes is absent where it may be, or refers to a
    live object of its type in [s]. *)
Definition well_formed (s : state) (o : operation) : bool :=
  match o with
  | CallStructByPointer data => optional_ref holds_TestData s data
  | CallPointerArgs _ out_val => optional_ref designates_int s out_val
  | CallInstanceMethod this _ => holds_TestClass s this
  | _ => true
  end.

(** The lines and the surface entries a call from outside adds. *)
Definition lines_of (o : operation) : list log_entry :=
  match o with
  | CallDriver => driver_lines
  | _ => []
  end.

Definition calls_of (o : operation) : list surface :=
  match o with
  | CallDriver => driver_calls
  | _ => []
  end.

(* ===================================================================== *)
(** * Properties *)
(* ===================================================================== *)

(** ** Facts about machine integers *)

Module IntFacts.
Import Int.

Lemma in_rangeb_spec z : in_rangeb z = true <-> in_range z.
Proof.
  unfold in_rangeb, in_range.
  rewrite andb_true_iff, !Z.leb_le. tauto.
Qed.

Lemma wrap_in_range z : in_range (wrap z).
Proof.
  unfold in_range, wrap, min_signed, max_signed, modulus.
  pose proof (Z.mod_pos_bound (z - - 2 ^ 31) (2 ^ 32) eq_refl). lia.
Qed.

Lemma wrap_small z : in_range z -> wrap z = z.
Proof.
  unfold in_range, wrap, min_signed, max_signed, modulus. intros H.
  rewrite Z.mod_small; lia.
Qed.

Lemma wrap_congruent z : wrap z mod modulus = z mod modulus.
Proof.
  unfold wrap, min_signed, modulus.
  rewrite Zplus_mod_idemp_l. f_equal. lia.
Qed.

Lemma wrap_overflow z : ~ in_range z -> wrap z <> z.
Proof.
  intros H E. apply H. rewrite <- E. apply wrap_in_range.
Qed.

End IntFacts.

(** ** The double literals *)

(** 42.5 = 85 * 2^46 * 2^-47, 85.0 = 85 * 2^46 * 2^-46 and
    2.0 = 2^52 * 2^-51, each with a 53-bit mantissa. *)
Lemma literals_denote :
  Double.lit_42_5 = S754_finite false (Z.to_pos (85 * 2 ^ 46)) (-47) /\
  Double.lit_85_0 = S754_finite false (Z.to_pos (85 * 2 ^ 46)) (-46) /\
  Double.lit_2_0 = S754_finite false (Z.to_pos (2 ^ 52)) (-51) /\
  forallb (valid_binary Double.prec Double.emax)
          [Double.lit_42_5; Double.lit_85_0; Double.lit_2_0] = true.
Proof. repeat split. Qed.

Example double_42_5 : Double.mul Double.lit_42_5 Double.lit_2_0 = Double.lit_85_0.
Proof. reflexivity. Qed.

(** Doubling the largest finite double overflows to infinity; infinities
    and NaN are kept. *)
Example double_max_float :
  Double.mul (SFmax_float Double.prec Double.emax) Double.lit_2_0
  = S754_infinity false.
Proof. reflexivity. Qed.

Example double_nan : Double.mul S754_nan Double.lit_2_0 = S754_nan.
Proof. reflexivity. Qed.

(** ** Facts about memory *)

Section Memory.
Context (s : state) (l : loc).

Lemma load_at o :
  objects s !! l = Some o -> load (address l) s = Ok o s.
Proof. intros H. unfold load. now rewrite H. Qed.

Lemma store_at o o' :
  objects s !! l = Some o ->
  store (address l) o' s = Ok tt (set_objects (<[l := o']> (objects s)) s).
Proof. intros H. unfold store. now rewrite H. Qed.

Lemma lookup_stored o o' :
  objects s !! l = Some o ->
  objects (set_objects (<[l := o']> (objects s)) s) !! l = Some o'.
Proof.
  intros H. cbn. apply list_lookup_insert_eq.
  eapply lookup_lt_Some, H.
Qed.

Lemma store_TestData_at d d' :
  objects s !! l = Some (ObjTestData d) ->
  store_TestData (address l) d' s
  = Ok tt (set_objects (<[l := ObjTestData d']> (objects s)) s).
Proof.
  intros H. unfold store_TestData, load_TestData, bind.
  rewrite (load_at _ H). cbn. apply (store_at _ _ H).
Qed.

Lemma store_int_at n n' :
  objects s !! l = Some (ObjInt n) ->
  store_int (address l) n' s
  = Ok tt (set_objects (<[l := ObjInt n']> (objects s)) s).
Proof.
  intros H. unfold store_int. now rewrite H.
Qed.

End Memory.


Lemma holds_TestData_inv s p :
  holds_TestData s p = true ->
  exists l d, p = address l /\ objects s !! l = Some (ObjTestData d).
Proof.
  unfold holds_TestData, target. destruct p as [| |l|]; try discriminate.
  destruct (objects s !! l) as [[]|] eqn:E; try discriminate. eauto.
Qed.

Lemma holds_TestClass_inv s p :
  holds_TestClass s p = true ->
  exists l c, p = address l /\ objects s !! l = Some (ObjTestClass c).
Proof.
  unfold holds_TestClass, target. destruct p as [| |l|]; try discriminate.
  destruct (objects s !! l) as [[]|] eqn:E; try discriminate. eauto.
Qed.

Lemma optional_ref_inv holds s p :
  optional_ref holds s p = true -> p = nullptr \/ holds s p = true.
Proof.
  unfold optional_ref. destruct p; cbn; auto.
Qed.

(** ** The surfaces one by one *)

Lemma test_simple_function_eq a b s :
  test_simple_function a b s = Ok (Int.add a b) s.
Proof. reflexivity. Qed.

Lemma test_struct_by_pointer_null s :
  test_struct_by_pointer nullptr s = Ok tt s.
Proof. reflexivity. Qed.

Lemma test_struct_by_pointer_at s l d :
  objects s !! l = Some (ObjTestData d) ->
  test_struct_by_pointer (address l) s
  = Ok tt (set_objects
             (<[l := ObjTestData (mkTestData (Int.add (id d) 1)
                                             (Double.mul (value d) Double.lit_2_0))]>
                (objects s)) s).
Proof.
  intros H. unfold test_struct_by_pointer. cbn [is_present].
  unfold bind at 1. unfold load_TestData at 1. unfold bind at 1.
  rewrite (load_at _ _ _ H). cbn [ret].
  unfold bind at 1. rewrite (store_TestData_at _ _ _ _ H).
  pose proof (lookup_stored s l _
    (ObjTestData (mkTestData (Int.add (id d) 1) (value d))) H) as H1.
  unfold bind at 1. unfold load_TestData at 1. unfold bind at 1.
  rewrite (load_at _ _ _ H1). cbn [ret].
  rewrite (store_TestData_at _ _ _ _ H1).
  cbn [objects set_objects id value]. rewrite list_insert_insert_eq.
  reflexivity.
Qed.

Lemma test_pointer_args_null input_str s :
  test_pointer_args input_str nullptr s = Ok input_str s.
Proof. reflexivity. Qed.

Lemma test_pointer_args_at input_str s l n :
  objects s !! l = Some (ObjInt n) ->
  test_pointer_args input_str (address l) s
  = Ok input_str (set_objects (<[l := ObjInt 500]> (objects s)) s).
Proof.
  intros H. unfold test_pointer_args. cbn [is_present].
  unfold bind at 1. now rewrite (store_int_at _ _ _ _ H).
Qed.

Lemma instance_method_at s l c multiplier :
  objects s !! l = Some (ObjTestClass c) ->
  instance_method (address l) multiplier s
  = Ok (Int.mul (m_value c) multiplier) s.
Proof.
  intros H. unfold instance_method, load_TestClass, bind.
  now rewrite (load_at _ _ _ H).
Qed.

Lemma TestClass_ctor_at s l o initial :
  objects s !! l = Some o ->
  TestClass_ctor (address l) initial s
  = Ok tt (set_logcat
             (logcat s ++ [info "TestClass instance created with m_value = %d"
                                [LInt initial]])
             (set_objects (<[l := ObjTestClass (mkTestClass initial)]> (objects s)) s)).
Proof.
  intros H. unfold TestClass_ctor.
  unfold bind at 1. rewrite (store_at _ _ _ _ H).
  pose proof (lookup_stored s l _ (ObjTestClass (mkTestClass initial)) H) as H1.
  unfold bind at 1. unfold load_TestClass, bind at 1.
  rewrite (load_at _ _ _ H1). reflexivity.
Qed.

Lemma TestClass_ctor_inv this initial s s1 :
  TestClass_ctor this initial s = Ok tt s1 ->
  exists l, this = address l /\
            objects s1 !! l = Some (ObjTestClass (mkTestClass initial)).
Proof.
  destruct this as [| |l|]; try discriminate.
  destruct (objects s !! l) as [o|] eqn:E.
  - rewrite (TestClass_ctor_at _ _ _ _ E). intros [= <-].
    exists l. split; [reflexivity|]. cbn.
    apply list_lookup_insert_eq. eapply lookup_lt_Some, E.
  - unfold TestClass_ctor, bind, store. now rewrite E.
Qed.

(* ===================================================================== *)
(** ** The arithmetic surface *)
(* ===================================================================== *)

(** C2, as stated, fails: "for all integers a and b,
    test_simple_function(a, b) returns their sum a + b."  Both 2147483647
    and 1 are values of [int]; their sum 2147483648 is not, and the call
    returns -2147483648. *)
Lemma test_simple_function_overflow :
  Int.in_range 2147483647 /\ Int.in_range 1 /\
  test_simple_function 2147483647 1 loaded_state = Ok (-2147483648) loaded_state /\
  test_simple_function 2147483647 1 loaded_state
    <> Ok (2147483647 + 1) loaded_state.
Proof.
  repeat split; try discriminate; unfold Int.in_range, Int.min_signed, Int.max_signed; lia.
Qed.

(** C2, amended: for all integers a and b whose sum a + b is a value of
    the 32-bit [int] type, test_simple_function(a, b) returns a + b and
    leaves the whole state as it was (no side effects). *)
Theorem test_simple_function_sum (a b : Z) (s : state) :
  Int.in_range (a + b) ->
  test_simple_function a b s = Ok (a + b) s.
Proof.
  intros H. rewrite test_simple_function_eq.
  unfold Int.add. now rewrite IntFacts.wrap_small.
Qed.

Lemma test_simple_function_sum_witness :
  Int.in_range (5 + 7) /\
  test_simple_function 5 7 loaded_state = Ok (5 + 7) loaded_state.
Proof.
  assert (H : Int.in_range (5 + 7))
    by (unfold Int.in_range, Int.min_signed, Int.max_signed; lia).
  split; [exact H | exact (test_simple_function_sum 5 7 loaded_state H)].
Defined.

(* ===================================================================== *)
(** ** The record surface *)
(* ===================================================================== *)

(** C3, as stated, fails: "for every record with identifier i ... leaves
    the record with identifier == i+1."  With i = 2147483647 the record
    ends with identifier -2147483648 (and measurement 85.0). *)
Lemma test_struct_by_pointer_overflow :
  Int.in_range 2147483647 /\
  (exists s',
      test_struct_by_pointer (address 0) record_at_max = Ok tt s' /\
      target s' (address 0)
      = Some (ObjTestData (mkTestData (-2147483648) Double.lit_85_0))) /\
  ~ (exists s' v',
        test_struct_by_pointer (address 0) record_at_max = Ok tt s' /\
        target s' (address 0)
        = Some (ObjTestData (mkTestData (2147483647 + 1) v'))).
Proof.
  split; [unfold Int.in_range, Int.min_signed, Int.max_signed; lia|].
  split.
  - eexists. split; reflexivity.
  - intros (s' & v' & E & T).
    vm_compute in E. injection E as <-. vm_compute in T. discriminate T.
Qed.

(** C3, amended: for every record with identifier i and measurement v
    such that i + 1 is a value of the 32-bit [int] type, calling
    test_struct_by_pointer with a present reference to that record returns
    no value and leaves the record with identifier i + 1 and measurement
    v * 2.0 (the IEEE 754 double product), every other part of the state
    unchanged; calling it with an absent (null) reference returns normally
    and changes nothing. *)
Theorem test_struct_by_pointer_mutates (s : state) (l : loc) (i : Z) (v : double) :
  objects s !! l = Some (ObjTestData (mkTestData i v)) ->
  Int.in_range (i + 1) ->
  test_struct_by_pointer (address l) s
  = Ok tt (set_objects
             (<[l := ObjTestData (mkTestData (i + 1) (Double.mul v Double.lit_2_0))]>
                (objects s)) s)
  /\ test_struct_by_pointer nullptr s = Ok tt s.
Proof.
  intros H R. split; [|reflexivity].
  rewrite (test_struct_by_pointer_at _ _ _ H). cbn [id value].
  unfold Int.add. now rewrite IntFacts.wrap_small.
Qed.

Lemma test_struct_by_pointer_mutates_witness :
  test_struct_by_pointer (address 0) record_10
  = Ok tt (mkState g_test_variable_init
                   [ObjTestData (mkTestData 11 Double.lit_85_0)] [] [])
  /\ test_struct_by_pointer nullptr record_10 = Ok tt record_10.
Proof.
  assert (R : Int.in_range (10 + 1))
    by (unfold Int.in_range, Int.min_signed, Int.max_signed; lia).
  exact (test_struct_by_pointer_mutates record_10 0%nat 10 Double.lit_42_5 eq_refl R).
Defined.



(* ===================================================================== *)
(** ** The echo surface *)
(* ===================================================================== *)



(* ===================================================================== *)
(** ** The instance method *)
(* ===================================================================== *)

(** C5, as stated, fails: "for every integer m, the instance method of an
    object constructed with stored field f returns f * m."  An object
    constructed with 65536 returns 0 for m = 65536. *)
Lemma instance_method_overflow :
  Int.in_range 65536 /\
  (exists s1,
      TestClass_ctor (address 0) 65536 raw_storage = Ok tt s1 /\
      instance_method (address 0) 65536 s1 = Ok 0 s1 /\
      instance_method (address 0) 65536 s1 <> Ok (65536 * 65536) s1).
Proof.
  split; [unfold Int.in_range, Int.min_signed, Int.max_signed; lia|].
  eexists. split; [reflexivity|]. split; [reflexivity|discriminate].
Qed.

(** C5, amended: for every integer m and every object constructed with
    stored field f such that f * m is a value of the 32-bit [int] type,
    the instance method returns f * m and changes nothing; in particular
    an object constructed with 42 returns 420 for m = 10. *)
Theorem instance_method_product (s s1 : state) (this : ptr) (f m : Z) :
  TestClass_ctor this f s = Ok tt s1 ->
  Int.in_range (f * m) ->
  instance_method this m s1 = Ok (f * m) s1.
Proof.
  intros C R. apply TestClass_ctor_inv in C as (l & -> & H).
  rewrite (instance_method_at _ _ _ _ H). cbn [m_value].
  unfold Int.mul. now rewrite IntFacts.wrap_small.
Qed.

Lemma instance_method_product_witness :
  exists s1,
    TestClass_ctor (address 0) 42 raw_storage = Ok tt s1 /\
    Int.in_range (42 * 10) /\
    instance_method (address 0) 10 s1 = Ok 420 s1.
Proof.
  assert (R : Int.in_range (42 * 10))
    by (unfold Int.in_range, Int.min_signed, Int.max_signed; lia).
  eexists. split; [reflexivity|]. split; [exact R|].
  exact (instance_method_product raw_storage _ (address 0) 42 10 eq_refl R).
Defined.

(* ===================================================================== *)
(** ** The static method *)
(* ===================================================================== *)

(** C6: the static method takes no argument and always returns a pointer
    to the constant string "Original static string", changing nothing. *)
Theorem static_method_constant (s : state) :
  static_method s = Ok (literal "Original static string") s /\
  (p <- static_method ;; read_cstr p) s = Ok "Original static string" s.
Proof. split; reflexivity. Qed.

(* ===================================================================== *)
(** ** No surface fails on well-formed arguments *)
(* ===================================================================== *)

Lemma store_int_designated s p n :
  designates_int s p = true -> exists s', store_int p n s = Ok tt s'.
Proof.
  unfold designates_int, target, store_int.
  destruct p as [| |l|]; try discriminate; eauto.
  destruct (objects s !! l) as [[]|]; try discriminate; eauto.
Qed.

Lemma test_pointer_args_designated s input_str out_val :
  optional_ref designates_int s out_val = true ->
  exists s', test_pointer_args input_str out_val s = Ok input_str s'.
Proof.
  intros V. apply optional_ref_inv in V as [-> | V]; [eexists; reflexivity|].
  destruct (store_int_designated s out_val 500 V) as (s' & E).
  exists s'. unfold test_pointer_args, bind.
  destruct out_val; try discriminate V; cbn [is_present]; now rewrite E.
Qed.




(* ===================================================================== *)
(** ** Fixed-width arithmetic *)
(* ===================================================================== *)

(** C10: the arithmetic surface and the instance method compute on 32-bit
    integers.  For all [int] inputs the result of test_simple_function is
    the [int] congruent to a + b modulo 2^32, and the result of
    instance_method is the [int] congruent to m_value * multiplier modulo
    2^32; whenever the mathematical sum or product is not an [int], the
    result differs from it. *)
Theorem arithmetic_wraps_around
    (s : state) (a b : Z) (l : loc) (f m : Z) :
  Int.in_range a -> Int.in_range b ->
  Int.in_range f -> Int.in_range m ->
  objects s !! l = Some (ObjTestClass (mkTestClass f)) ->
  (exists r, test_simple_function a b s = Ok r s /\
             Int.in_range r /\
             r mod 2 ^ 32 = (a + b) mod 2 ^ 32 /\
             (~ Int.in_range (a + b) -> r <> a + b)) /\
  (exists r, instance_method (address l) m s = Ok r s /\
             Int.in_range r /\
             r mod 2 ^ 32 = (f * m) mod 2 ^ 32 /\
             (~ Int.in_range (f * m) -> r <> f * m)).
Proof.
  intros _ _ _ _ H. split.
  - exists (Int.add a b). split; [reflexivity|]. unfold Int.add.
    split; [apply IntFacts.wrap_in_range|].
    split; [apply IntFacts.wrap_congruent | apply IntFacts.wrap_overflow].
  - exists (Int.mul f m). rewrite (instance_method_at _ _ _ _ H).
    split; [reflexivity|]. unfold Int.mul.
    split; [apply IntFacts.wrap_in_range|].
    split; [apply IntFacts.wrap_congruent | apply IntFacts.wrap_overflow].
Qed.

Lemma arithmetic_wraps_around_witness :
  Int.in_range 2147483647 /\ Int.in_range 1 /\ Int.in_range 65536 /\
  objects one_of_each !! 2%nat = Some (ObjTestClass (mkTestClass 65536)) /\
  test_simple_function 2147483647 1 one_of_each <> Ok (2147483647 + 1) one_of_each /\
  instance_method (address 2) 65536 one_of_each <> Ok (65536 * 65536) one_of_each.
Proof.
  assert (R : forall z, -2147483648 <= z <= 2147483647 -> Int.in_range z)
    by (intros z; unfold Int.in_range, Int.min_signed, Int.max_signed; lia).
  assert (N : forall z, 2147483647 < z -> ~ Int.in_range z)
    by (intros z; unfold Int.in_range, Int.min_signed, Int.max_signed; lia).
  destruct (arithmetic_wraps_around one_of_each 2147483647 1 2%nat 65536 65536
              (R 2147483647 ltac:(lia)) (R 1 ltac:(lia))
              (R 65536 ltac:(lia)) (R 65536 ltac:(lia))
              eq_refl)
    as [(r1 & E1 & _ & _ & D1) (r2 & E2 & _ & _ & D2)].
  split; [apply R; lia|]. split; [apply R; lia|]. split; [apply R; lia|].
  split; [reflexivity|]. split.
  - rewrite E1. intros [= E]. exact (D1 (N (2147483647 + 1) ltac:(lia)) E).
  - rewrite E2. intros [= E]. exact (D2 (N (65536 * 65536) ltac:(lia)) E).
Defined.

(* ===================================================================== *)
(** ** Running a computation step by step *)
(* ===================================================================== *)

(** If [m] returns [a] and leaves [s1], then [bind m k] goes on as [k a]
    from [s1]. *)
Lemma bind_runs {A B} (m : M A) (k : A -> M B) s a s1 r :
  m s = Ok a s1 -> k a s1 = r -> bind m k s = r.
Proof. intros H1 H2. unfold bind. now rewrite H1. Qed.

Lemma invoke_runs {A} f (body : M A) s r :
  body (set_calls (calls s ++ [f]) s) = r -> invoke f body s = r.
Proof. intros H. exact H. Qed.

Lemma lookup_snoc_last {A} (l : list A) (x : A) :
  (l ++ [x]) !! length l = Some x.
Proof. now apply list_lookup_middle. Qed.

Lemma insert_snoc_last {A} (l : list A) (x y : A) :
  <[length l := y]> (l ++ [x]) = l ++ [y].
Proof.
  rewrite insert_app_r_alt by reflexivity.
  now rewrite Nat.sub_diag.
Qed.

Lemma load_int_at s l n :
  objects s !! l = Some (ObjInt n) -> load_int (address l) s = Ok n s.
Proof. intros H. unfold load_int. now rewrite H. Qed.

Lemma load_TestData_at s l d :
  objects s !! l = Some (ObjTestData d) -> load_TestData (address l) s = Ok d s.
Proof. intros H. unfold load_TestData, bind. now rewrite (load_at _ _ _ H). Qed.

Lemma state_eq g g' o o' l l' c c' :
  g = g' -> o = o' -> l = l' -> c = c' -> mkState g o l c = mkState g' o' l' c'.
Proof. now intros -> -> -> ->. Qed.

(** Appending one element at a time is appending the list. *)
Lemma snocs_app {A} (xs l : list A) :
  fold_left (fun acc x => acc ++ [x]) xs l = l ++ xs.
Proof.
  revert l. induction xs as [|x xs IH]; intros l; cbn [fold_left].
  - now rewrite app_nil_r.
  - rewrite IH, <- app_assoc. reflexivity.
Qed.

Ltac state_simpl :=
  cbn [objects logcat calls g_test_variable
       set_objects set_logcat set_calls set_global].

(** One statement of straight-line code: run it, continue with the rest. *)
Ltac run_with lem :=
  eapply bind_runs; [ lem | cbn beta; state_simpl ].

Ltac run_log := run_with ltac:(reflexivity).

Lemma run_all_tests_eq (s : state) :
  run_all_tests s
  = Ok tt (set_calls (calls s ++ driver_calls)
                     (set_logcat (logcat s ++ driver_lines) s)).
Proof.
  destruct s as [g objs lg cs]. unfold run_all_tests.
  run_with ltac:(reflexivity).
  do 2 run_log.
  run_with ltac:(apply invoke_runs; reflexivity).
  run_log.
  (* TestData data = { .id = 10, .value = 42.5 }; *)
  run_with ltac:(reflexivity).
  do 2 run_log.
  run_with ltac:(apply invoke_runs; apply test_struct_by_pointer_at;
                 state_simpl; apply lookup_snoc_last).
  rewrite insert_snoc_last.
  run_with ltac:(apply load_TestData_at; state_simpl; apply lookup_snoc_last).
  run_log.
  (* int out_val = 0; *)
  run_with ltac:(reflexivity).
  run_log.
  run_with ltac:(apply invoke_runs; eapply test_pointer_args_at;
                 state_simpl; apply lookup_snoc_last).
  rewrite insert_snoc_last.
  run_with ltac:(apply load_int_at; state_simpl; apply lookup_snoc_last).
  run_log.
  (* TestClass instance(42); *)
  run_with ltac:(reflexivity).
  run_with ltac:(eapply TestClass_ctor_at; state_simpl; apply lookup_snoc_last).
  rewrite insert_snoc_last.
  run_log.
  run_with ltac:(apply invoke_runs; apply instance_method_at;
                 state_simpl; apply lookup_snoc_last).
  run_log.
  run_log.
  run_with ltac:(apply invoke_runs; reflexivity).
  run_log.
  run_log.
  unfold frame_leave, modify. state_simpl.
  apply f_equal, state_eq.
  - reflexivity.
  - rewrite <- !app_assoc. apply take_app_length.
  - exact (snocs_app driver_lines lg).
  - exact (snocs_app driver_calls cs).
Qed.

(* ===================================================================== *)
(** ** The driver *)
(* ===================================================================== *)

Example run_all_tests_after_load :
  run_all_tests loaded_state
  = Ok tt (mkState g_test_variable_init [] driver_lines driver_calls).
Proof. reflexivity. Qed.

(** C1: run from any state, with no hook installed, the driver returns;
    it has entered each of the five surfaces exactly once, in the order
    arithmetic, record mutation, string/output parameter, instance method,
    static method; and the lines it appended to the log pair, test by
    test, an expectation with an observation.  The expectations announce
    12, (11, 85.0), 500, 420 and 'Original static string' in that order,
    and the observations carry those very values. *)
Theorem run_all_tests_report (s : state) :
  exists s' lines,
    run_all_tests s = Ok tt s' /\
    calls s' = calls s ++ [Simple; StructByPointer; PointerArgs;
                           InstanceMethod; StaticMethod] /\
    logcat s' = logcat s ++ lines /\
    objects s' = objects s /\
    map test_number (reports lines)
    = map Some ["1"; "1"; "2"; "2"; "3"; "3"; "4"; "4"; "5"; "5"]%char /\
    map is_expected (reports lines)
    = [true; false; true; false; true; false; true; false; true; false] /\
    map is_actual (reports lines)
    = [false; true; false; true; false; true; false; true; false; true] /\
    map expected_text (expectations lines)
    = map Some ["12"; "id=11, value=85.0"; "500"; "420";
                "'Original static string'"] /\
    map args (observations lines)
    = [[LInt 12]; [LInt 11; LDouble Double.lit_85_0]; [LInt 500];
       [LInt 420]; [LStr "Original static string"]].
Proof.
  exists (set_calls (calls s ++ driver_calls)
                    (set_logcat (logcat s ++ driver_lines) s)), driver_lines.
  split; [apply run_all_tests_eq|].
  repeat split.
Qed.

(* ===================================================================== *)
(** ** The global counter *)
(* ===================================================================== *)

Create HintDb frame.

Lemma ignores_ret {A} (a : A) : ignores_global (ret a).
Proof. intros g s. reflexivity. Qed.

Lemma ignores_fault {A} : ignores_global (@fault A).
Proof. intros g s. reflexivity. Qed.

Lemma ignores_bind {A B} (m : M A) (k : A -> M B) :
  ignores_global m -> (forall a, ignores_global (k a)) ->
  ignores_global (bind m k).
Proof.
  intros Hm Hk g s. unfold bind. rewrite Hm.
  destruct (m s) as [a s1|]; [apply Hk | reflexivity].
Qed.

Lemma ignores_load p : ignores_global (load p).
Proof.
  intros g s. unfold load. destruct p as [| |l|]; try reflexivity.
  cbn [objects set_global]. now destruct (objects s !! l).
Qed.

Lemma ignores_store p o : ignores_global (store p o).
Proof.
  intros g s. unfold store. destruct p as [| |l|]; try reflexivity.
  cbn [objects set_global]. now destruct (objects s !! l).
Qed.

Lemma ignores_if {A} (b : bool) (m1 m2 : M A) :
  ignores_global m1 -> ignores_global m2 ->
  ignores_global (if b then m1 else m2).
Proof. now destruct b. Qed.

#[local] Hint Resolve ignores_ret ignores_fault ignores_load ignores_store : frame.
#[local] Hint Extern 2 (ignores_global (bind _ _)) =>
  apply ignores_bind; [ | intros ? ] : frame.
#[local] Hint Extern 2 (ignores_global (if _ then _ else _)) =>
  apply ignores_if : frame.
#[local] Hint Extern 3 (ignores_global (match ?o with _ => _ end)) =>
  destruct o : frame.

Lemma ignores_load_TestData p : ignores_global (load_TestData p).
Proof. unfold load_TestData. auto with frame. Qed.

Lemma ignores_load_TestClass p : ignores_global (load_TestClass p).
Proof. unfold load_TestClass. auto with frame. Qed.

#[local] Hint Resolve ignores_load_TestData ignores_load_TestClass : frame.

Lemma ignores_store_TestData p d : ignores_global (store_TestData p d).
Proof. unfold store_TestData. auto with frame. Qed.

(** Writing through an [int*] leaves the counter alone unless the pointer
    is the counter's own address. *)
Lemma ignores_store_int p n :
  p <> addr_g_test_variable -> ignores_global (store_int p n).
Proof.
  intros N g s. unfold store_int. destruct p as [| |l|]; try reflexivity.
  - cbn [objects set_global]. now destruct (objects s !! l) as [[]|].
  - now contradiction N.
Qed.

#[local] Hint Resolve ignores_store_TestData : frame.

Lemma ignores_test_simple_function a b :
  ignores_global (test_simple_function a b).
Proof. unfold test_simple_function. auto with frame. Qed.

Lemma ignores_test_struct_by_pointer data :
  ignores_global (test_struct_by_pointer data).
Proof. unfold test_struct_by_pointer. auto 10 with frame. Qed.

Lemma ignores_test_pointer_args input_str out_val :
  out_val <> addr_g_test_variable ->
  ignores_global (test_pointer_args input_str out_val).
Proof.
  intros N. unfold test_pointer_args.
  apply ignores_bind; [|intros _; apply ignores_ret].
  apply ignores_if; [exact (ignores_store_int _ _ N) | apply ignores_ret].
Qed.

Lemma ignores_instance_method this multiplier :
  ignores_global (instance_method this multiplier).
Proof. unfold instance_method. auto with frame. Qed.

Lemma ignores_static_method : ignores_global static_method.
Proof. unfold static_method. auto with frame. Qed.

(** The driver works on its own locals only. *)
Lemma ignores_run_all_tests : ignores_global run_all_tests.
Proof. intros g s. now rewrite !run_all_tests_eq. Qed.

Lemma ptr_eqb_eq p q : ptr_eqb p q = true <-> p = q.
Proof.
  destruct p, q; cbn; try (split; [discriminate | congruence]);
    try (split; reflexivity).
  - rewrite String.eqb_eq. split; congruence.
  - rewrite Nat.eqb_eq. split; congruence.
Qed.

Lemma ptr_eqb_neq p q : ptr_eqb p q = false -> p <> q.
Proof.
  intros H E. apply ptr_eqb_eq in E. congruence.
Qed.

Lemma ignores_perform o :
  hands_over addr_g_test_variable o = false -> ignores_global (perform o).
Proof.
  destruct o as [a b|data|input_str out_val|this multiplier| |];
    cbn [perform hands_over]; intros H.
  - apply ignores_bind; [apply ignores_test_simple_function|].
    intros _. apply ignores_ret.
  - apply ignores_test_struct_by_pointer.
  - apply ignores_bind; [|intros _; apply ignores_ret].
    apply ignores_test_pointer_args. exact (ptr_eqb_neq _ _ H).
  - apply ignores_bind; [apply ignores_instance_method|].
    intros _. apply ignores_ret.
  - apply ignores_bind; [apply ignores_static_method|].
    intros _. apply ignores_ret.
  - apply ignores_run_all_tests.
Qed.

Lemma ignores_perform_all os :
  spares_counter os = true -> ignores_global (perform_all os).
Proof.
  unfold spares_counter.
  induction os as [|o os IH]; cbn [perform_all forallb]; intros H.
  - apply ignores_ret.
  - apply andb_true_iff in H as [Ho Hos]. apply negb_true_iff in Ho.
    apply ignores_bind; [exact (ignores_perform _ Ho) | intros _; exact (IH Hos)].
Qed.

Lemma set_global_same s : set_global (g_test_variable s) s = s.
Proof. now destruct s. Qed.

(** C9, as stated, fails: "after any sequence of calls to these operations
    it still holds its load-time initial value."  The counter is an
    ordinary exported [int]: handed its address as output parameter, the
    echo surface stores 500 in it. *)
Lemma g_test_variable_overwritten :
  test_pointer_args (literal "Hello from C++") addr_g_test_variable loaded_state
  = Ok (literal "Hello from C++") (set_global 500 loaded_state) /\
  g_test_variable loaded_state = g_test_variable_init /\
  exists s',
    perform_all [CallPointerArgs (literal "Hello from C++") addr_g_test_variable]
                loaded_state = Ok tt s' /\
    g_test_variable s' = 500 /\
    g_test_variable s' <> g_test_variable_init.
Proof.
  split; [reflexivity|]. split; [reflexivity|].
  eexists. split; [reflexivity|]. split; [reflexivity|]. discriminate.
Qed.

(** C9, amended: the code never names the counter.  The driver, and every
    call of a probe surface that is not handed the counter's own address
    (as data, out_val or this), neither reads nor writes it: started with
    any other value [g] in the counter, the call has the same outcome and
    the same result, and leaves the same state with [g] still in the
    counter.  Handed the counter's address as out_val, the echo surface
    overwrites it without reading it.  After any sequence of calls none of
    which is handed the counter's address, the counter still holds its
    load-time value. *)
Theorem g_test_variable_untouched :
  (forall a b, ignores_global (test_simple_function a b)) /\
  (forall data, data <> addr_g_test_variable ->
                ignores_global (test_struct_by_pointer data)) /\
  (forall input_str out_val, out_val <> addr_g_test_variable ->
                ignores_global (test_pointer_args input_str out_val)) /\
  (forall this multiplier, this <> addr_g_test_variable ->
                ignores_global (instance_method this multiplier)) /\
  ignores_global static_method /\
  ignores_global run_all_tests /\
  (forall input_str g s,
      test_pointer_args input_str addr_g_test_variable (set_global g s)
      = test_pointer_args input_str addr_g_test_variable s) /\
  (forall os s s',
      spares_counter os = true ->
      g_test_variable s = g_test_variable_init ->
      perform_all os s = Ok tt s' ->
      g_test_variable s' = g_test_variable_init /\
      forall g, perform_all os (set_global g s) = Ok tt (set_global g s')).
Proof.
  split; [exact ignores_test_simple_function|].
  split; [intros data _; apply ignores_test_struct_by_pointer|].
  split; [exact ignores_test_pointer_args|].
  split; [intros this multiplier _; apply ignores_instance_method|].
  split; [exact ignores_static_method|].
  split; [exact ignores_run_all_tests|].
  split; [reflexivity|].
  intros os s s' A G R.
  assert (F : forall g, perform_all os (set_global g s) = Ok tt (set_global g s')).
  { intros g. rewrite (ignores_perform_all os A), R. reflexivity. }
  split; [|exact F].
  specialize (F (g_test_variable s)). rewrite set_global_same, R in F.
  injection F as F. rewrite F. cbn. exact G.
Qed.

Lemma g_test_variable_untouched_witness :
  spares_counter sample_calls = true /\
  g_test_variable one_of_each = g_test_variable_init /\
  test_simple_function 5 7 (set_global 7 one_of_each)
  = Ok 12 (set_global 7 one_of_each) /\
  exists s',
    perform_all sample_calls one_of_each = Ok tt s' /\
    g_test_variable s' = g_test_variable_init /\
    (forall g, perform_all sample_calls (set_global g one_of_each)
               = Ok tt (set_global g s')).
Proof.
  destruct g_test_variable_untouched as (S & _ & _ & _ & _ & _ & _ & Q).
  split; [reflexivity|]. split; [reflexivity|].
  split; [exact (S 5 7 7 one_of_each)|].
  destruct (perform_all sample_calls one_of_each) as [[] s'|] eqn:E;
    [|vm_compute in E; discriminate E].
  exists s'. split; [reflexivity|].
  exact (Q sample_calls one_of_each s' eq_refl eq_refl E).
Defined.

(* ===================================================================== *)
(** ** The load-time constructor and its thread *)
(* ===================================================================== *)

Lemma with_log_with_log l1 l2 s :
  with_log l2 (with_log l1 s) = with_log (l1 ++ l2) s.
Proof. destruct s. unfold with_log. cbn. now rewrite <- app_assoc. Qed.

Lemma LOG_I_plain format s :
  LOG_I format [] s = Ok tt (with_log [info format []] s).
Proof. reflexivity. Qed.

Lemma run_all_tests_after lines s :
  run_all_tests (with_log lines s) = Ok tt (after_driver lines s).
Proof.
  rewrite run_all_tests_eq. destruct s. unfold after_driver, with_log. cbn.
  now rewrite <- app_assoc.
Qed.

Lemma on_library_load_eq w :
  on_library_load w
  = Some (mkProcess (with_log [loader_line] (mach w)) (clock w)
                    (pool w ++ [Running test_runner_thread_func])).
Proof. reflexivity. Qed.

Lemma run_schedule_app es1 es2 w :
  run_schedule (es1 ++ es2) w
  = match run_schedule es1 w with
    | Some w' => run_schedule es2 w'
    | None => None
    end.
Proof.
  revert w. induction es1 as [|e es1 IH]; intros w; cbn; [reflexivity|].
  destruct (step e w); [apply IH | reflexivity].
Qed.

Lemma reaches_refl w : reaches w w.
Proof. now exists []. Qed.

Lemma reaches_trans w1 w2 w3 : reaches w1 w2 -> reaches w2 w3 -> reaches w1 w3.
Proof.
  intros [es1 H1] [es2 H2]. exists (es1 ++ es2).
  now rewrite run_schedule_app, H1.
Qed.

Lemma reaches_step e w w' : step e w = Some w' -> reaches w w'.
Proof. intros H. exists [e]. cbn. now rewrite H. Qed.

Lemma reaches_ticks n s c p :
  reaches (mkProcess s c p) (mkProcess s (n + c) p).
Proof.
  revert c. induction n as [|n IH]; intros c; [apply reaches_refl|].
  eapply reaches_trans; [apply (reaches_step Tick); reflexivity|].
  cbn [mach clock pool]. replace (S n + c)%nat with (n + S c)%nat by lia.
  apply IH.
Qed.

Section Runner.
Context (s : state) (now : nat).

(** The one step the thread can take at each point of its body. *)
Lemma step_spawned c :
  step (Sched 0) (mkProcess (with_log [loader_line] s) c [Running test_runner_thread_func])
  = Some (mkProcess (with_log [loader_line; started_line] s) c
                    [Running (rest test_runner_thread_func)]).
Proof.
  cbn [step step_thread pool mach clock lookup list_lookup].
  unfold test_runner_thread_func.
  now rewrite LOG_I_plain, with_log_with_log.
Qed.

Lemma step_started c :
  step (Sched 0) (mkProcess (with_log [loader_line; started_line] s) c
                            [Running (rest test_runner_thread_func)])
  = Some (mkProcess (with_log [loader_line; started_line] s) c
                    [Asleep (c + 3) (rest (rest test_runner_thread_func))]).
Proof. reflexivity. Qed.

Lemma step_asleep wake c :
  step (Sched 0) (mkProcess (with_log [loader_line; started_line] s) c
                            [Asleep wake (rest (rest test_runner_thread_func))])
  = if (wake <=? c)%nat
    then Some (mkProcess (with_log [loader_line; started_line] s) c
                         [Running (rest (rest test_runner_thread_func))])
    else None.
Proof. reflexivity. Qed.

Lemma step_awake c :
  step (Sched 0) (mkProcess (with_log [loader_line; started_line] s) c
                            [Running (rest (rest test_runner_thread_func))])
  = Some (mkProcess (with_log [loader_line; started_line; starting_line] s) c
                    [Running (rest (rest (rest test_runner_thread_func)))]).
Proof.
  cbn [step step_thread pool mach clock lookup list_lookup].
  unfold test_runner_thread_func. cbn [rest].
  now rewrite LOG_I_plain, with_log_with_log.
Qed.

Lemma step_announced c :
  step (Sched 0) (mkProcess (with_log [loader_line; started_line; starting_line] s) c
                            [Running (rest (rest (rest test_runner_thread_func)))])
  = Some (mkProcess (after_driver [loader_line; started_line; starting_line] s) c [Running TReturn]).
Proof.
  cbn [step step_thread pool mach clock lookup list_lookup].
  unfold test_runner_thread_func. cbn [rest].
  now rewrite run_all_tests_after.
Qed.

Lemma step_driven c :
  step (Sched 0) (mkProcess (after_driver [loader_line; started_line; starting_line] s) c [Running TReturn])
  = Some (mkProcess (after_driver [loader_line; started_line; starting_line] s) c [Exited]).
Proof. reflexivity. Qed.

Lemma step_exited i m c : step (Sched i) (mkProcess m c [Exited]) = None.
Proof. now destruct i as [|[|i]]. Qed.

Lemma step_elsewhere i m c t : step (Sched (S i)) (mkProcess m c [t]) = None.
Proof. now destruct i. Qed.

(** Every step keeps the process within the seven phases. *)
Lemma runner_phase_step e w w' :
  runner_phase s now w -> step e w = Some w' -> runner_phase s now w'.
Proof.
  intros P. destruct e as [i|].
  - destruct i as [|i]; [|destruct P; now rewrite step_elsewhere].
    destruct P.
    + rewrite step_spawned. intros [= <-]. now apply phase_started.
    + rewrite step_started. intros [= <-]. now apply phase_asleep.
    + rewrite step_asleep. destruct (c0 + 3 <=? c)%nat eqn:E; [|discriminate].
      apply Nat.leb_le in E. intros [= <-]. apply phase_awake. lia.
    + rewrite step_awake. intros [= <-]. now apply phase_announced.
    + rewrite step_announced. intros [= <-]. now apply phase_driven.
    + rewrite step_driven. intros [= <-]. now apply phase_exited.
    + now rewrite step_exited.
  - cbn [step]. intros [= <-].
    destruct P; cbn [mach clock pool]; constructor; lia.
Qed.

Lemma runner_phase_run es w w' :
  runner_phase s now w -> run_schedule es w = Some w' -> runner_phase s now w'.
Proof.
  revert w. induction es as [|e es IH]; intros w P; cbn [run_schedule].
  - now intros [= <-].
  - destruct (step e w) as [w1|] eqn:E; [|discriminate].
    apply IH. exact (runner_phase_step _ _ _ P E).
Qed.

(** From every phase the thread can still run to its end. *)
Lemma runner_phase_exits w :
  runner_phase s now w -> exists w', reaches w w' /\ pool w' = [Exited].
Proof.
  assert (X : forall c, exists w',
    reaches (mkProcess (after_driver [loader_line; started_line; starting_line] s) c [Exited]) w' /\ pool w' = [Exited]).
  { intros c. eexists. split; [apply reaches_refl | reflexivity]. }
  assert (D : forall c, exists w',
    reaches (mkProcess (after_driver [loader_line; started_line; starting_line] s) c [Running TReturn]) w'
    /\ pool w' = [Exited]).
  { intros c. destruct (X c) as (w' & R & E). exists w'. split; [|exact E].
    eapply reaches_trans; [|exact R]. apply (reaches_step _ _ _ (step_driven c)). }
  assert (N : forall c, exists w',
    reaches (mkProcess (with_log [loader_line; started_line; starting_line] s) c [Running (rest (rest (rest test_runner_thread_func)))]) w'
    /\ pool w' = [Exited]).
  { intros c. destruct (D c) as (w' & R & E). exists w'. split; [|exact E].
    eapply reaches_trans; [|exact R]. apply (reaches_step _ _ _ (step_announced c)). }
  assert (A : forall c, exists w',
    reaches (mkProcess (with_log [loader_line; started_line] s) c
                       [Running (rest (rest test_runner_thread_func))]) w'
    /\ pool w' = [Exited]).
  { intros c. destruct (N c) as (w' & R & E). exists w'. split; [|exact E].
    eapply reaches_trans; [|exact R]. apply (reaches_step _ _ _ (step_awake c)). }
  assert (Z : forall wake c, exists w',
    reaches (mkProcess (with_log [loader_line; started_line] s) c
                       [Asleep wake (rest (rest test_runner_thread_func))]) w'
    /\ pool w' = [Exited]).
  { intros wake c. destruct (A (wake + c)%nat) as (w' & R & E).
    exists w'. split; [|exact E].
    eapply reaches_trans; [apply (reaches_ticks wake)|].
    eapply reaches_trans; [|exact R]. apply (reaches_step (Sched 0)).
    rewrite step_asleep.
    destruct (wake <=? wake + c)%nat eqn:L; [reflexivity|].
    apply Nat.leb_gt in L. lia. }
  assert (S1 : forall c, exists w',
    reaches (mkProcess (with_log [loader_line; started_line] s) c
                       [Running (rest test_runner_thread_func)]) w'
    /\ pool w' = [Exited]).
  { intros c. destruct (Z (c + 3)%nat c) as (w' & R & E).
    exists w'. split; [|exact E].
    eapply reaches_trans; [|exact R]. apply (reaches_step _ _ _ (step_started c)). }
  intros P. destruct P; auto.
  destruct (S1 c) as (w' & R & E). exists w'. split; [|exact E].
  eapply reaches_trans; [|exact R]. apply (reaches_step _ _ _ (step_spawned c)).
Qed.

End Runner.

(** Once its only thread has exited, a process can only watch the clock. *)
Lemma exited_forever es m c w' :
  run_schedule es (mkProcess m c [Exited]) = Some w' ->
  pool w' = [Exited] /\ mach w' = m.
Proof.
  revert c. induction es as [|e es IH]; intros c; cbn [run_schedule].
  - now intros [= <-].
  - destruct e as [i|].
    + now rewrite step_exited.
    + cbn [step mach clock pool]. apply IH.
Qed.

(** C8: loading the library starts exactly one detached thread and returns
    to the loader at once, the driver not yet run.  Whatever the schedule
    afterwards, the library never has a second thread; the thread sleeps
    until three seconds after it went to sleep; the driver runs only after
    that, and at most once; when the thread has exited the driver has run
    exactly once, and from then on nothing moves any more: the thread is
    not restarted and the driver does not run again.  The thread can
    always run to its end. *)
Theorem on_library_load_one_shot (s : state) (now : nat) :
  exists w1,
    on_library_load (host s now) = Some w1 /\
    pool w1 = [Running test_runner_thread_func] /\
    clock w1 = now /\
    mach w1 = with_log [loader_line] s /\
    forall es w,
      run_schedule es w1 = Some w ->
      length (pool w) = 1%nat /\
      (calls (mach w) = calls s \/
       calls (mach w) = calls s ++ driver_calls /\ (now + 3 <= clock w)%nat) /\
      (forall wake k,
          pool w = [Asleep wake k] ->
          calls (mach w) = calls s /\
          exists asleep_at, (now <= asleep_at <= clock w)%nat /\
                            wake = (asleep_at + 3)%nat) /\
      (pool w = [Exited] ->
       mach w = after_driver [loader_line; started_line; starting_line] s /\
       forall es' w', run_schedule es' w = Some w' ->
                      pool w' = [Exited] /\ mach w' = mach w) /\
      (exists es' w', run_schedule es' w = Some w' /\ pool w' = [Exited]).
Proof.
  eexists. split; [apply on_library_load_eq|]. cbn [host mach clock pool app].
  do 3 (split; [reflexivity|]).
  intros es w R.
  assert (P : runner_phase s now w).
  { eapply runner_phase_run; [|exact R]. now apply phase_spawned. }
  split; [now destruct P|].
  split; [destruct P; cbn [mach clock calls after_driver with_log set_calls set_logcat];
          auto|].
  split; [|split].
  - intros wake k E. destruct P; try discriminate E.
    cbn [pool] in E. injection E as <- <-. split; [reflexivity|].
    exists c0. cbn [clock]. lia.
  - intros E. destruct P; try discriminate E. split; [reflexivity|].
    intros es' w'. apply exited_forever.
  - destruct (runner_phase_exits s now w P) as (w' & [es' R'] & E). eauto.
Qed.

Lemma on_library_load_one_shot_witness :
  exists w1 w,
    on_library_load (host loaded_state 0) = Some w1 /\
    run_schedule eager_schedule w1 = Some w /\
    pool w = [Exited] /\
    clock w = 3%nat /\
    calls (mach w) = driver_calls /\
    forall es' w', run_schedule es' w = Some w' ->
                   pool w' = [Exited] /\ mach w' = mach w.
Proof.
  destruct (on_library_load_one_shot loaded_state 0) as (w1 & L & _ & _ & _ & A).
  exists w1. rewrite L. rewrite on_library_load_eq in L. injection L as <-.
  destruct (run_schedule eager_schedule _) as [w|] eqn:R;
    [|vm_compute in R; discriminate R].
  exists w. split; [reflexivity|]. split; [reflexivity|].
  destruct (A eager_schedule w R) as (_ & _ & _ & X & _).
  assert (E : pool w = [Exited])
    by (vm_compute in R; injection R as <-; reflexivity).
  destruct (X E) as [M F].
  split; [exact E|].
  split; [vm_compute in R; injection R as <-; reflexivity|].
  split; [rewrite M; reflexivity | exact F].
Defined.

(* ===================================================================== *)
(** * Further properties of the code *)
(* ===================================================================== *)

(** ** Wrap-around arithmetic composes *)

Lemma wrap_congr x y :
  x mod Int.modulus = y mod Int.modulus -> Int.wrap x = Int.wrap y.
Proof.
  intros H. unfold Int.wrap.
  rewrite <- (Zminus_mod_idemp_l x), <- (Zminus_mod_idemp_l y), H.
  reflexivity.
Qed.

Lemma wrap_add_l a b : Int.wrap (Int.wrap a + b) = Int.wrap (a + b).
Proof.
  apply wrap_congr.
  rewrite <- Zplus_mod_idemp_l, IntFacts.wrap_congruent, Zplus_mod_idemp_l.
  reflexivity.
Qed.

Lemma wrap_add_r a b : Int.wrap (a + Int.wrap b) = Int.wrap (a + b).
Proof. rewrite (Z.add_comm a), wrap_add_l. f_equal. lia. Qed.

Lemma wrap_mul_r a b : Int.wrap (a * Int.wrap b) = Int.wrap (a * b).
Proof.
  apply wrap_congr.
  rewrite <- Zmult_mod_idemp_r, IntFacts.wrap_congruent, Zmult_mod_idemp_r.
  reflexivity.
Qed.

(** X1: the two arithmetic surfaces compose like the ring of integers
    modulo 2^32, with no range condition: test_simple_function is
    commutative and associative, and instance_method distributes over it. *)
Theorem arithmetic_surfaces_compose
    (s : state) (l : loc) (f a b c : Z) :
  objects s !! l = Some (ObjTestClass (mkTestClass f)) ->
  test_simple_function a b s = test_simple_function b a s /\
  (x <- test_simple_function a b ;; test_simple_function x c) s
  = (y <- test_simple_function b c ;; test_simple_function a y) s /\
  (x <- test_simple_function a b ;; instance_method (address l) x) s
  = (p <- instance_method (address l) a ;;
     q <- instance_method (address l) b ;;
     test_simple_function p q) s.
Proof.
  intros H. split; [|split].
  - rewrite !test_simple_function_eq. unfold Int.add. now rewrite Z.add_comm.
  - unfold bind. rewrite !test_simple_function_eq. unfold Int.add.
    rewrite wrap_add_l, wrap_add_r. do 2 f_equal. lia.
  - unfold bind. rewrite !test_simple_function_eq.
    rewrite !(instance_method_at _ _ _ _ H). rewrite test_simple_function_eq.
    cbn [m_value]. unfold Int.add, Int.mul.
    rewrite wrap_mul_r, wrap_add_l, wrap_add_r. do 2 f_equal. lia.
Qed.

Lemma arithmetic_surfaces_compose_witness :
  objects one_of_each !! 2%nat = Some (ObjTestClass (mkTestClass 65536)) /\
  (x <- test_simple_function 2147483647 1 ;; test_simple_function x (-1)) one_of_each
  = (y <- test_simple_function 1 (-1) ;; test_simple_function 2147483647 y) one_of_each /\
  (x <- test_simple_function 32768 32768 ;; instance_method (address 2) x) one_of_each
  = (p <- instance_method (address 2) 32768 ;;
     q <- instance_method (address 2) 32768 ;;
     test_simple_function p q) one_of_each.
Proof.
  split; [reflexivity|].
  pose proof (arithmetic_surfaces_compose one_of_each 2%nat 65536
                2147483647 1 (-1) eq_refl) as (_ & A & _).
  pose proof (arithmetic_surfaces_compose one_of_each 2%nat 65536
                32768 32768 0 eq_refl) as (_ & _ & D).
  split; [exact A | exact D].
Defined.

(** ** The record surface, in general and repeated *)

(** X2: whatever the identifier, the record surface leaves an [int] in the
    record: the one congruent to i + 1 modulo 2^32, which is i + 1 except
    at the largest [int], where it is the smallest.  The rest of the store
    is as before, and so are the log and the global. *)
Theorem test_struct_by_pointer_wraps (s : state) (l : loc) (i : Z) (v : double) :
  objects s !! l = Some (ObjTestData (mkTestData i v)) ->
  Int.in_range i ->
  exists s' i',
    test_struct_by_pointer (address l) s = Ok tt s' /\
    objects s' !! l = Some (ObjTestData (mkTestData i' (Double.mul v Double.lit_2_0))) /\
    Int.in_range i' /\
    i' mod 2 ^ 32 = (i + 1) mod 2 ^ 32 /\
    (i < Int.max_signed -> i' = i + 1) /\
    (i = Int.max_signed -> i' = Int.min_signed) /\
    (forall l', l' <> l -> objects s' !! l' = objects s !! l') /\
    length (objects s') = length (objects s) /\
    logcat s' = logcat s /\ g_test_variable s' = g_test_variable s.
Proof.
  intros H R. eexists. exists (Int.add i 1).
  split; [apply (test_struct_by_pointer_at _ _ _ H)|].
  cbn [objects set_objects logcat g_test_variable id value].
  split; [apply list_lookup_insert_eq; eapply lookup_lt_Some, H|].
  split; [apply IntFacts.wrap_in_range|].
  split; [apply IntFacts.wrap_congruent|].
  split; [|split; [|split; [|split]]].
  - intros L. apply IntFacts.wrap_small.
    unfold Int.in_range, Int.max_signed, Int.min_signed in *. lia.
  - intros ->. reflexivity.
  - intros l' N. apply list_lookup_insert_ne. congruence.
  - apply length_insert.
  - split; reflexivity.
Qed.

Lemma test_struct_by_pointer_wraps_witness :
  objects record_at_max !! 0%nat
  = Some (ObjTestData (mkTestData 2147483647 Double.lit_42_5)) /\
  Int.in_range 2147483647 /\
  exists s',
    test_struct_by_pointer (address 0) record_at_max = Ok tt s' /\
    objects s' !! 0%nat
    = Some (ObjTestData (mkTestData Int.min_signed Double.lit_85_0)).
Proof.
  assert (R : Int.in_range 2147483647)
    by (unfold Int.in_range, Int.min_signed, Int.max_signed; lia).
  split; [reflexivity|]. split; [exact R|].
  destruct (test_struct_by_pointer_wraps record_at_max 0%nat 2147483647
              Double.lit_42_5 eq_refl R)
    as (s' & i' & E & O & _ & _ & _ & M & _).
  exists s'. split; [exact E|]. rewrite (M eq_refl) in O. exact O.
Defined.

(** X3: calling the record surface n times on the same record adds n to
    the identifier modulo 2^32 and doubles the measurement n times; nothing
    else in the state changes. *)
Theorem test_struct_by_pointer_repeated
    (n : nat) (s : state) (l : loc) (i : Z) (v : double) :
  objects s !! l = Some (ObjTestData (mkTestData i v)) ->
  Int.in_range i ->
  times n (test_struct_by_pointer (address l)) s
  = Ok tt (set_objects
             (<[l := ObjTestData (mkTestData (Int.wrap (i + Z.of_nat n))
                                             (doubled n v))]> (objects s)) s).
Proof.
  revert s i v. induction n as [|n IH]; intros s i v H R.
  - cbn [times doubled Z.of_nat]. rewrite Z.add_0_r, IntFacts.wrap_small by exact R.
    destruct s as [g objs lg cs]. cbn [objects] in H.
    apply f_equal, state_eq; try reflexivity.
    symmetry. apply list_insert_id. exact H.
  - cbn [times doubled]. unfold bind.
    rewrite (test_struct_by_pointer_at _ _ _ H). cbn [id value].
    rewrite (IH _ (Int.add i 1) (Double.mul v Double.lit_2_0)).
    + cbn [objects set_objects]. rewrite list_insert_insert_eq.
      unfold Int.add. rewrite wrap_add_l.
      replace (i + 1 + Z.of_nat n) with (i + Z.of_nat (S n)) by lia.
      reflexivity.
    + apply lookup_stored with (o := ObjTestData (mkTestData i v)). exact H.
    + apply IntFacts.wrap_in_range.
Qed.

Lemma test_struct_by_pointer_repeated_witness :
  objects record_10 !! 0%nat = Some (ObjTestData (mkTestData 10 Double.lit_42_5)) /\
  Int.in_range 10 /\
  times 3 (test_struct_by_pointer (address 0)) record_10
  = Ok tt (mkState g_test_variable_init
                   [ObjTestData (mkTestData 13 (Double.of_scaled 340 0))] [] []).
Proof.
  assert (R : Int.in_range 10)
    by (unfold Int.in_range, Int.min_signed, Int.max_signed; lia).
  split; [reflexivity|]. split; [exact R|].
  exact (test_struct_by_pointer_repeated 3 record_10 0%nat 10 Double.lit_42_5 eq_refl R).
Defined.

(** ** Doubling a double *)

Lemma digits2_pos_shift52 m :
  digits2_pos (m * 4503599627370496) = (digits2_pos m + 52)%positive.
Proof.
  rewrite Pos.mul_comm. lazy beta iota delta [Pos.mul]. cbn [digits2_pos].
  rewrite <- !Pos.add_1_r, <- !Pos.add_assoc. reflexivity.
Qed.

Lemma shr_52 m :
  SpecFloat.iter_pos shr_1 52 (Build_shr_record (Zpos (m * 4503599627370496)) false false)
  = Build_shr_record (Zpos m) false false.
Proof. rewrite Pos.mul_comm. lazy beta iota delta [Pos.mul]. reflexivity. Qed.

Lemma shr_51 m :
  SpecFloat.iter_pos shr_1 51 (Build_shr_record (Zpos (m * 4503599627370496)) false false)
  = Build_shr_record (Zpos m~0) false false.
Proof. rewrite Pos.mul_comm. lazy beta iota delta [Pos.mul]. reflexivity. Qed.

Lemma double_normal sgn m e :
  digits2_pos m = 53%positive -> -1074 <= e <= 971 ->
  Double.mul (S754_finite sgn m e) Double.lit_2_0
  = if (e <=? 970)%Z then S754_finite sgn m (e + 1) else S754_infinity sgn.
Proof.
  intros D E.
  change Double.lit_2_0 with (S754_finite false 4503599627370496 (-51)).
  unfold Double.mul, SFmul, binary_round_aux, shr_fexp, Zdigits2.
  rewrite digits2_pos_shift52, D.
  unfold fexp, emin, Double.prec, Double.emax.
  replace (Z.max _ _ - (e + -51)) with 52 by lia.
  cbn [shr shr_record_of_loc]. rewrite shr_52.
  cbn [shr_m loc_of_shr_record round_nearest_even Zdigits2]. rewrite D.
  replace (Z.max _ _ - (e + -51 + 52)) with 0 by lia.
  cbn [shr shr_record_of_loc shr_m].
  replace (e + -51 + 52) with (e + 1) by lia.
  destruct (e <=? 970)%Z eqn:L970;
    [apply Z.leb_le in L970 | apply Z.leb_gt in L970];
    (destruct (e + 1 <=? 1024 - 53)%Z eqn:L;
     [apply Z.leb_le in L | apply Z.leb_gt in L]); try lia;
    now destruct sgn.
Qed.

Lemma double_subnormal sgn m :
  (digits2_pos m < 53)%positive ->
  Double.mul (S754_finite sgn m (-1074)) Double.lit_2_0
  = S754_finite sgn m~0 (-1074).
Proof.
  intros D.
  change Double.lit_2_0 with (S754_finite false 4503599627370496 (-51)).
  unfold Double.mul, SFmul, binary_round_aux, shr_fexp, Zdigits2.
  rewrite digits2_pos_shift52.
  unfold fexp, emin, Double.prec, Double.emax.
  replace (Z.max _ _ - (-1074 + -51)) with 51 by lia.
  cbn [shr shr_record_of_loc]. rewrite shr_51.
  cbn [shr_m loc_of_shr_record round_nearest_even Zdigits2 digits2_pos].
  replace (Z.max _ _ - (-1074 + -51 + 51)) with 0 by lia.
  cbn [shr shr_record_of_loc shr_m].
  now destruct sgn.
Qed.

(** A valid finite double is normal (53 digits) or sits at the smallest
    exponent. *)
Lemma valid_finite_inv sgn m e :
  valid_binary Double.prec Double.emax (S754_finite sgn m e) = true ->
  (digits2_pos m = 53%positive /\ -1074 <= e <= 971) \/
  ((digits2_pos m < 53)%positive /\ e = -1074).
Proof.
  unfold valid_binary, bounded, canonical_mantissa, fexp, emin,
    Double.prec, Double.emax.
  rewrite andb_true_iff, Z.eqb_eq, Z.leb_le. lia.
Qed.

Lemma double_exactly_twice v :
  valid_binary Double.prec Double.emax v = true ->
  Double.mul v Double.lit_2_0 = exactly_twice v.
Proof.
  destruct v as [sgn|sgn| |sgn m e]; intros V; try (now destruct sgn).
  - reflexivity.
  - unfold exactly_twice.
    destruct (valid_finite_inv _ _ _ V) as [[D E] | [D ->]].
    + rewrite (double_normal _ _ _ D E), D. reflexivity.
    + rewrite (double_subnormal _ _ D).
      destruct (digits2_pos m =? 53)%positive eqn:Q; [|reflexivity].
      apply Pos.eqb_eq in Q. lia.
Qed.

Lemma exactly_twice_ulps v :
  valid_binary Double.prec Double.emax v = true ->
  is_finite (exactly_twice v) = true ->
  ulps (exactly_twice v) = 2 * ulps v.
Proof.
  destruct v as [sgn|sgn| |sgn m e]; intros V F; try reflexivity.
  unfold exactly_twice in *.
  destruct (valid_finite_inv _ _ _ V) as [[D E] | [D ->]].
  - rewrite D in *. cbn [Pos.eqb] in *.
    change (53 =? 53)%positive with true in *. cbn iota in *.
    destruct (e <=? 970)%Z; [|discriminate F].
    unfold ulps. replace (e + 1 + 1074) with (Z.succ (e + 1074)) by lia.
    rewrite Z.pow_succ_r by lia. destruct sgn; lia.
  - destruct (digits2_pos m =? 53)%positive eqn:Q;
      [apply Pos.eqb_eq in Q; lia|].
    unfold ulps. change (2 ^ (-1074 + 1074)) with 1. destruct sgn; lia.
Qed.

(** X4: on a record whose measurement is a well-formed double, the record
    surface doubles the measurement exactly as [exactly_twice] spells out:
    next exponent for a normal number, one-bit shift for a subnormal one,
    infinity past the largest exponent, zeros, infinities and NaN kept.
    Whenever the result is finite it is exactly twice the old measurement,
    with no rounding. *)
Theorem test_struct_by_pointer_doubles_exactly
    (s : state) (l : loc) (i : Z) (v : double) :
  objects s !! l = Some (ObjTestData (mkTestData i v)) ->
  valid_binary Double.prec Double.emax v = true ->
  exists s' i',
    test_struct_by_pointer (address l) s = Ok tt s' /\
    objects s' !! l = Some (ObjTestData (mkTestData i' (exactly_twice v))) /\
    valid_binary Double.prec Double.emax (exactly_twice v) = true /\
    (is_finite (exactly_twice v) = true -> ulps (exactly_twice v) = 2 * ulps v).
Proof.
  intros H V. eexists. exists (Int.add i 1).
  split; [apply (test_struct_by_pointer_at _ _ _ H)|].
  cbn [objects set_objects id value]. rewrite (double_exactly_twice _ V).
  split; [apply list_lookup_insert_eq; eapply lookup_lt_Some, H|].
  split; [|apply (exactly_twice_ulps _ V)].
  destruct v as [sgn|sgn| |sgn m e]; try reflexivity.
  unfold exactly_twice.
  destruct (valid_finite_inv _ _ _ V) as [[D E] | [D ->]].
  - rewrite D. change (53 =? 53)%positive with true. cbn iota.
    destruct (e <=? 970)%Z eqn:L; [apply Z.leb_le in L | reflexivity].
    unfold valid_binary, bounded, canonical_mantissa, fexp, emin,
      Double.prec, Double.emax.
    rewrite D, andb_true_iff, Z.eqb_eq, Z.leb_le. lia.
  - destruct (digits2_pos m =? 53)%positive eqn:Q;
      [apply Pos.eqb_eq in Q; lia|].
    unfold valid_binary, bounded, canonical_mantissa, fexp, emin,
      Double.prec, Double.emax. cbn [digits2_pos].
    rewrite andb_true_iff, Z.eqb_eq, Z.leb_le. lia.
Qed.

Lemma test_struct_by_pointer_doubles_exactly_witness :
  objects record_10 !! 0%nat = Some (ObjTestData (mkTestData 10 Double.lit_42_5)) /\
  valid_binary Double.prec Double.emax Double.lit_42_5 = true /\
  exactly_twice Double.lit_42_5 = Double.lit_85_0 /\
  exists s' i',
    test_struct_by_pointer (address 0) record_10 = Ok tt s' /\
    objects s' !! 0%nat = Some (ObjTestData (mkTestData i' (exactly_twice Double.lit_42_5))).
Proof.
  split; [reflexivity|]. split; [reflexivity|]. split; [reflexivity|].
  destruct (test_struct_by_pointer_doubles_exactly record_10 0%nat 10
              Double.lit_42_5 eq_refl eq_refl) as (s' & i' & E & O & _).
  exists s', i'. split; [exact E | exact O].
Defined.

(** ** Writing through the output parameter *)

Lemma store_int_address s (l : loc) n :
  store_int (address l) n s
  = match objects s !! l with
    | Some o =>
        match with_first_int o n with
        | Some o' => Ok tt (set_objects (<[l := o']> (objects s)) s)
        | None => Fault
        end
    | None => Fault
    end.
Proof.
  unfold store_int. now destruct (objects s !! l) as [[]|].
Qed.

Lemma with_first_int_kind o n o' :
  with_first_int o n = Some o' -> same_kind o o' = true.
Proof. destruct o; cbn; intros [= <-]; reflexivity. Qed.

Lemma with_first_int_twice o n o' :
  with_first_int o n = Some o' -> with_first_int o' n = Some o'.
Proof. destruct o; cbn; intros [= <-]; reflexivity. Qed.

Lemma designates_int_address s (l : loc) :
  designates_int s (address l) = true ->
  exists o o', objects s !! l = Some o /\ with_first_int o 500 = Some o'.
Proof.
  unfold designates_int, target.
  destruct (objects s !! l) as [[]|]; try discriminate; cbn; eauto.
Qed.

Lemma load_int_stored s (l : loc) o n o' :
  objects s !! l = Some o -> with_first_int o n = Some o' ->
  load_int (address l) (set_objects (<[l := o']> (objects s)) s) = Ok n
    (set_objects (<[l := o']> (objects s)) s).
Proof.
  intros H W. pose proof (lookup_stored s l o o' H) as H1.
  unfold load_int. rewrite H1.
  destruct o; cbn in W; try discriminate W; injection W as <-; reflexivity.
Qed.

Lemma test_pointer_args_address input_str s (l : loc) o o' :
  objects s !! l = Some o -> with_first_int o 500 = Some o' ->
  test_pointer_args input_str (address l) s
  = Ok input_str (set_objects (<[l := o']> (objects s)) s).
Proof.
  intros H W. unfold test_pointer_args, bind. cbn [is_present].
  now rewrite store_int_address, H, W.
Qed.

(** What the echo surface does with an output parameter that designates
    an [int]. *)
Lemma store_500_through
    (s : state) (input_str out_val : ptr) :
  designates_int s out_val = true ->
  exists s',
    test_pointer_args input_str out_val s = Ok input_str s' /\
    load_int out_val s' = Ok 500 s' /\
    (forall (l : loc) d, out_val = address l ->
       objects s !! l = Some (ObjTestData d) ->
       objects s' !! l = Some (ObjTestData (mkTestData 500 (value d)))) /\
    (forall (l : loc) c, out_val = address l ->
       objects s !! l = Some (ObjTestClass c) ->
       objects s' !! l = Some (ObjTestClass (mkTestClass 500))) /\
    (out_val = addr_g_test_variable -> g_test_variable s' = 500) /\
    (out_val <> addr_g_test_variable -> g_test_variable s' = g_test_variable s) /\
    (forall l : loc, out_val <> address l -> objects s' !! l = objects s !! l) /\
    length (objects s') = length (objects s) /\
    logcat s' = logcat s.
Proof.
  intros V. destruct out_val as [| |l|]; try discriminate V.
  - destruct (designates_int_address _ _ V) as (o & o' & H & W).
    rewrite (test_pointer_args_address _ _ _ _ _ H W).
    eexists. split; [reflexivity|].
    split; [exact (load_int_stored _ _ _ _ _ H W)|].
    cbn [objects set_objects g_test_variable logcat].
    pose proof (lookup_stored s l o o' H) as H1. cbn [objects set_objects] in H1.
    split; [|split; [|split; [|split; [|split; [|split]]]]].
    + intros l0 d [= <-] Hd. rewrite Hd in H. injection H as <-.
      injection W as <-. exact H1.
    + intros l0 c [= <-] Hc. rewrite Hc in H. injection H as <-.
      injection W as <-. exact H1.
    + discriminate.
    + reflexivity.
    + intros l0 N. apply list_lookup_insert_ne. congruence.
    + apply length_insert.
    + reflexivity.
  - exists (set_global 500 s). split; [reflexivity|]. split; [reflexivity|].
    repeat split; try discriminate; try reflexivity.
    intros N. now contradiction N.
Qed.

(** X5: the echo surface writes through any pointer to an [int].  With an
    output parameter that designates the first member of a record it
    sets the record's identifier to 500, with one that designates a
    [TestClass] object it sets [m_value] to 500, with the address of the
    global counter it sets the counter to 500 -- returning normally each
    time, with the string pointer passed back; reading through the
    pointer afterwards gives 500, and nothing else is touched. *)
Theorem test_pointer_args_writes_through
    (s : state) (input_str out_val : ptr) :
  designates_int s out_val = true ->
  exists s',
    test_pointer_args input_str out_val s = Ok input_str s' /\
    load_int out_val s' = Ok 500 s' /\
    (forall (l : loc) d, out_val = address l ->
       objects s !! l = Some (ObjTestData d) ->
       objects s' !! l = Some (ObjTestData (mkTestData 500 (value d)))) /\
    (forall (l : loc) c, out_val = address l ->
       objects s !! l = Some (ObjTestClass c) ->
       objects s' !! l = Some (ObjTestClass (mkTestClass 500))) /\
    (out_val = addr_g_test_variable -> g_test_variable s' = 500) /\
    (out_val <> addr_g_test_variable -> g_test_variable s' = g_test_variable s) /\
    (forall l : loc, out_val <> address l -> objects s' !! l = objects s !! l) /\
    length (objects s') = length (objects s) /\
    logcat s' = logcat s.
Proof. apply store_500_through. Qed.

Lemma test_pointer_args_writes_through_witness :
  designates_int one_of_each (address 0) = true /\
  designates_int one_of_each (address 2) = true /\
  designates_int one_of_each addr_g_test_variable = true /\
  (exists s', test_pointer_args nullptr (address 0) one_of_each = Ok nullptr s' /\
              objects s' !! 0%nat
              = Some (ObjTestData (mkTestData 500 Double.lit_42_5))) /\
  (exists s', test_pointer_args nullptr (address 2) one_of_each = Ok nullptr s' /\
              objects s' !! 2%nat = Some (ObjTestClass (mkTestClass 500))) /\
  (exists s', test_pointer_args nullptr addr_g_test_variable one_of_each
              = Ok nullptr s' /\ g_test_variable s' = 500).
Proof.
  do 3 (split; [reflexivity|]).
  destruct (test_pointer_args_writes_through one_of_each nullptr (address 0) eq_refl)
    as (s0 & E0 & _ & D & _).
  destruct (test_pointer_args_writes_through one_of_each nullptr (address 2) eq_refl)
    as (s2 & E2 & _ & _ & C & _).
  destruct (test_pointer_args_writes_through one_of_each nullptr
              addr_g_test_variable eq_refl)
    as (sg & Eg & _ & _ & _ & G & _).
  split; [exists s0; split; [exact E0 | exact (D 0%nat _ eq_refl eq_refl)]|].
  split; [exists s2; split; [exact E2 | exact (C 2%nat _ eq_refl eq_refl)]|].
  exists sg. split; [exact Eg | exact (G eq_refl)].
Defined.

(** ** What a surface leaves of the store *)

Lemma same_kind_refl o : same_kind o o = true.
Proof.
  destruct o; cbn; auto using String.eqb_refl.
Qed.

Lemma same_kind_trans o1 o2 o3 :
  same_kind o1 o2 = true -> same_kind o2 o3 = true -> same_kind o1 o3 = true.
Proof.
  destruct o1, o2; try discriminate; destruct o3; try discriminate; cbn; auto.
  rewrite !String.eqb_eq. congruence.
Qed.

Lemma same_shape_refl s : same_shape s s.
Proof.
  intros l. destruct (objects s !! l); [apply same_kind_refl | exact I].
Qed.

Lemma same_shape_trans s1 s2 s3 :
  same_shape s1 s2 -> same_shape s2 s3 -> same_shape s1 s3.
Proof.
  intros H12 H23 l. specialize (H12 l). specialize (H23 l).
  destruct (objects s1 !! l), (objects s2 !! l), (objects s3 !! l);
    try contradiction; try exact I.
  eapply same_kind_trans; eassumption.
Qed.

Lemma same_shape_store s (l : loc) o o' :
  objects s !! l = Some o -> same_kind o o' = true ->
  same_shape s (set_objects (<[l := o']> (objects s)) s).
Proof.
  intros H K l'. cbn [objects set_objects].
  destruct (decide (l = l')) as [<- | N].
  - rewrite H, list_lookup_insert_eq by (eapply lookup_lt_Some, H). exact K.
  - rewrite list_lookup_insert_ne by exact N.
    exact (same_shape_refl s l').
Qed.

Lemma same_shape_holds s s' p :
  same_shape s s' ->
  designates_int s' p = designates_int s p /\
  holds_TestData s' p = holds_TestData s p /\
  holds_TestClass s' p = holds_TestClass s p.
Proof.
  intros H. unfold designates_int, holds_TestData, holds_TestClass, target.
  destruct p as [| |l|]; auto. specialize (H l).
  destruct (objects s !! l) as [o|], (objects s' !! l) as [o'|];
    try contradiction; auto.
  destruct o, o'; try discriminate H; auto.
Qed.

Lemma same_shape_length s s' :
  same_shape s s' -> length (objects s') = length (objects s).
Proof.
  intros H. unfold same_shape, loc in H.
  assert (L1 : (length (objects s') <= length (objects s))%nat).
  { pose proof (H (length (objects s))) as Hl.
    rewrite (lookup_ge_None_2 (objects s)) in Hl by reflexivity.
    destruct (objects s' !! length (objects s)) eqn:E; [contradiction|].
    now apply lookup_ge_None_1 in E. }
  assert (L2 : (length (objects s) <= length (objects s'))%nat).
  { pose proof (H (length (objects s'))) as Hl.
    rewrite (lookup_ge_None_2 (objects s')) in Hl by reflexivity.
    destruct (objects s !! length (objects s')) eqn:E; [contradiction|].
    now apply lookup_ge_None_1 in E. }
  lia.
Qed.

Lemma test_struct_by_pointer_inv data s s' :
  test_struct_by_pointer data s = Ok tt s' ->
  (data = nullptr /\ s' = s) \/
  exists l d, data = address l /\ objects s !! l = Some (ObjTestData d) /\
    s' = set_objects
           (<[l := ObjTestData (mkTestData (Int.add (id d) 1)
                                           (Double.mul (value d) Double.lit_2_0))]>
              (objects s)) s.
Proof.
  destruct data as [| |l|]; try discriminate.
  - intros [= <-]. auto.
  - destruct (objects s !! l) as [o|] eqn:H.
    + destruct o as [| |d| |];
        try (unfold test_struct_by_pointer, bind, load_TestData, bind, load;
             cbn [is_present]; rewrite H; discriminate).
      rewrite (test_struct_by_pointer_at _ _ _ H). intros [= <-]. right. eauto.
    + unfold test_struct_by_pointer, bind, load_TestData, bind, load.
      cbn [is_present]. rewrite H. discriminate.
Qed.

(** A store through an [int*] that returns has written one [int] and
    nothing else. *)
Lemma store_int_inv p n s s' :
  store_int p n s = Ok tt s' ->
  same_shape s s' /\ logcat s' = logcat s /\ calls s' = calls s.
Proof.
  destruct p as [| |l|]; try discriminate.
  - rewrite store_int_address.
    destruct (objects s !! l) as [o|] eqn:H; [|discriminate].
    destruct (with_first_int o n) as [o'|] eqn:W; [|discriminate].
    intros [= <-]. split; [|auto].
    exact (same_shape_store _ _ _ _ H (with_first_int_kind _ _ _ W)).
  - intros [= <-]. split; [exact (same_shape_refl s) | auto].
Qed.

Lemma test_pointer_args_inv input_str out_val s r s' :
  test_pointer_args input_str out_val s = Ok r s' ->
  r = input_str /\ same_shape s s' /\ logcat s' = logcat s /\ calls s' = calls s.
Proof.
  unfold test_pointer_args, bind. destruct (is_present out_val).
  - destruct (store_int out_val 500 s) as [[] s1|] eqn:E; [|discriminate].
    intros [= <- <-]. split; [reflexivity|]. exact (store_int_inv _ _ _ _ E).
  - intros [= <- <-]. split; [reflexivity|].
    split; [apply same_shape_refl | auto].
Qed.

Lemma instance_method_inv this multiplier s r s' :
  instance_method this multiplier s = Ok r s' -> s' = s.
Proof.
  unfold instance_method, bind, load_TestClass, bind, load.
  destruct this as [| |l|]; try discriminate.
  destruct (objects s !! l) as [[]|]; try discriminate. now intros [= _ <-].
Qed.

Lemma test_struct_by_pointer_shape data s s' :
  test_struct_by_pointer data s = Ok tt s' ->
  same_shape s s' /\ logcat s' = logcat s /\ calls s' = calls s.
Proof.
  intros E. apply test_struct_by_pointer_inv in E
    as [[_ ->] | (l & d & _ & H & ->)].
  - split; [apply same_shape_refl | auto].
  - split; [|auto]. eapply same_shape_store; [exact H | reflexivity].
Qed.

(** ** The surfaces do not disturb each other *)

(** X6: on a record and an [int] that are two different objects, the
    record surface and the echo surface can be called in either order:
    both orders return, with the same final state and the same returned
    pointer.  (When the output parameter is the record's own address the
    order shows: the identifier ends at 500 or at 501.) *)
Theorem record_and_echo_commute (s : state) (data input_str out_val : ptr) :
  optional_ref holds_TestData s data = true ->
  optional_ref designates_int s out_val = true ->
  (is_present data = true -> out_val <> data) ->
  exists s',
    (test_struct_by_pointer data ;; test_pointer_args input_str out_val) s
    = Ok input_str s' /\
    (r <- test_pointer_args input_str out_val ;;
     test_struct_by_pointer data ;; ret r) s
    = Ok input_str s'.
Proof.
  intros D O N. unfold bind.
  apply optional_ref_inv in D as [-> | D].
  - (* no record: only the echo surface acts *)
    rewrite test_struct_by_pointer_null.
    destruct (test_pointer_args_designated s input_str out_val O) as (s' & ->).
    exists s'. split; reflexivity.
  - apply holds_TestData_inv in D as (l & d & -> & H).
    specialize (N eq_refl).
    rewrite (test_struct_by_pointer_at _ _ _ H).
    apply optional_ref_inv in O as [-> | O].
    + rewrite !test_pointer_args_null. rewrite (test_struct_by_pointer_at _ _ _ H).
      eexists. split; reflexivity.
    + destruct out_val as [| |l'|]; try discriminate O.
      * assert (Nl : l <> l') by congruence.
        assert (Nl' : l' <> l) by congruence.
        destruct (designates_int_address _ _ O) as (o & o' & H' & W).
        erewrite (test_pointer_args_address _ _ l' o o')
          by (try exact W; cbn [objects set_objects];
              rewrite list_lookup_insert_ne by exact Nl; exact H').
        rewrite (test_pointer_args_address _ _ _ _ _ H' W).
        erewrite test_struct_by_pointer_at
          by (cbn [objects set_objects];
              rewrite list_lookup_insert_ne by exact Nl'; exact H).
        cbn [objects set_objects ret].
        rewrite (list_insert_insert_ne _ _ _ _ _ Nl).
        eexists. split; reflexivity.
      * assert (E : forall x, test_pointer_args input_str addr_g_test_variable x
                              = Ok input_str (set_global 500 x))
          by reflexivity.
        rewrite !E. cbn beta iota.
        rewrite (test_struct_by_pointer_at (set_global 500 s) _ _ H).
        eexists. split; reflexivity.
Qed.

Lemma record_and_echo_commute_witness :
  optional_ref holds_TestData one_of_each (address 0) = true /\
  optional_ref designates_int one_of_each (address 2) = true /\
  exists s',
    (test_struct_by_pointer (address 0) ;;
     test_pointer_args nullptr (address 2)) one_of_each = Ok nullptr s' /\
    (r <- test_pointer_args nullptr (address 2) ;;
     test_struct_by_pointer (address 0) ;; ret r) one_of_each = Ok nullptr s'.
Proof.
  split; [reflexivity|]. split; [reflexivity|].
  apply (record_and_echo_commute one_of_each (address 0) nullptr (address 2)
           eq_refl eq_refl).
  intros _. discriminate.
Defined.

(** The order shows when the output parameter is the record's address. *)
Example record_and_echo_aliased :
  (test_struct_by_pointer (address 0) ;;
   _ <- test_pointer_args nullptr (address 0) ;; load_int (address 0)) record_10
  = Ok 500 (mkState g_test_variable_init
                    [ObjTestData (mkTestData 500 Double.lit_85_0)] [] []) /\
  (_ <- test_pointer_args nullptr (address 0) ;;
   test_struct_by_pointer (address 0) ;; load_int (address 0)) record_10
  = Ok 501 (mkState g_test_variable_init
                    [ObjTestData (mkTestData 501 Double.lit_85_0)] [] []).
Proof. split; reflexivity. Qed.

(** X7: the echo surface is idempotent: calling it twice with the same
    arguments gives the same outcome, pointer and state as calling it
    once, with no condition on the arguments. *)
Theorem test_pointer_args_idempotent (s : state) (input_str out_val : ptr) :
  (test_pointer_args input_str out_val ;; test_pointer_args input_str out_val) s
  = test_pointer_args input_str out_val s.
Proof.
  unfold test_pointer_args, bind.
  destruct out_val as [| |l|]; cbn [is_present]; try reflexivity.
  rewrite store_int_address.
  destruct (objects s !! l) as [o|] eqn:H; [|reflexivity].
  destruct (with_first_int o 500) as [o'|] eqn:W; [|reflexivity].
  cbn [ret]. rewrite store_int_address.
  pose proof (lookup_stored s l o o' H) as H1. rewrite H1.
  rewrite (with_first_int_twice _ _ _ W).
  cbn [objects set_objects ret]. now rewrite list_insert_insert_eq.
Qed.

(** ** Any sequence of calls from outside *)

Lemma same_kind_chars str o :
  same_kind (ObjChars str) o = true -> o = ObjChars str.
Proof.
  destruct o; try discriminate. cbn. rewrite String.eqb_eq. now intros ->.
Qed.

Lemma well_formed_same_shape s s' o :
  same_shape s s' -> well_formed s' o = well_formed s o.
Proof.
  intros Sh. destruct o as [a b|data|input_str out_val|this multiplier| |];
    cbn [well_formed]; try reflexivity; unfold optional_ref.
  - now rewrite (proj1 (proj2 (same_shape_holds _ _ data Sh))).
  - now rewrite (proj1 (same_shape_holds _ _ out_val Sh)).
  - exact (proj2 (proj2 (same_shape_holds _ _ this Sh))).
Qed.

Lemma forallb_pointwise {A} (f g : A -> bool) (l : list A) :
  (forall x, f x = g x) -> forallb f l = forallb g l.
Proof.
  intros H. induction l as [|x l IH]; cbn [forallb]; [reflexivity|].
  now rewrite H, IH.
Qed.

(** What one well-formed call does to the store. *)
Lemma perform_well_formed o s :
  well_formed s o = true ->
  exists s1,
    perform o s = Ok tt s1 /\ same_shape s s1 /\
    (forall (l : loc) c, objects s !! l = Some (ObjTestClass c) ->
       writes_through (address l) o = false ->
       objects s1 !! l = Some (ObjTestClass c)).
Proof.
  destruct o as [a b|data|input_str out_val|this multiplier| |];
    cbn [perform well_formed writes_through]; intros V.
  - exists s. split; [reflexivity|]. split; [apply same_shape_refl | auto].
  - apply optional_ref_inv in V as [-> | V].
    + exists s. split; [reflexivity|]. split; [apply same_shape_refl | auto].
    + apply holds_TestData_inv in V as (l & d & -> & H).
      rewrite (test_struct_by_pointer_at _ _ _ H). eexists.
      split; [reflexivity|].
      split; [eapply same_shape_store; [exact H | reflexivity]|].
      intros l0 c Hc _. cbn [objects set_objects].
      rewrite list_lookup_insert_ne by (intros ->; congruence). exact Hc.
  - apply optional_ref_inv in V as [-> | V].
    + exists s. split; [reflexivity|]. split; [apply same_shape_refl | auto].
    + destruct (store_500_through s input_str out_val V)
        as (s1 & E & _ & _ & _ & _ & _ & F & _).
      exists s1. unfold bind. rewrite E. split; [reflexivity|].
      split; [exact (proj1 (proj2 (test_pointer_args_inv _ _ _ _ _ E)))|].
      intros l0 c Hc W. rewrite F; [exact Hc|].
      intros ->. cbn in W. now rewrite Nat.eqb_refl in W.
  - apply holds_TestClass_inv in V as (l & c & -> & H).
    exists s. unfold bind. rewrite (instance_method_at _ _ _ _ H).
    split; [reflexivity|]. split; [apply same_shape_refl | auto].
  - exists s. split; [reflexivity|]. split; [apply same_shape_refl | auto].
  - rewrite run_all_tests_eq. eexists. split; [reflexivity|].
    split; [exact (same_shape_refl s) | auto].
Qed.

(** X8: a sequence of surface and driver calls whose references are all
    well-formed -- absent where that is allowed, or referring to a live
    object of their type -- returns, and does not change the layout of the
    store: it has the same size, every location holds an object of the
    same kind as before, every string has the same characters, and a
    [TestClass] object is exactly as it was unless its own address was
    passed as output parameter of the echo surface. *)
Theorem calls_keep_the_store_shape (os : list operation) (s : state) :
  forallb (well_formed s) os = true ->
  exists s',
    perform_all os s = Ok tt s' /\
    length (objects s') = length (objects s) /\
    (forall (l : loc) o, objects s !! l = Some o ->
        exists o', objects s' !! l = Some o' /\ same_kind o o' = true) /\
    (forall (l : loc) str, objects s !! l = Some (ObjChars str) ->
        objects s' !! l = Some (ObjChars str)) /\
    (forall (l : loc) c, objects s !! l = Some (ObjTestClass c) ->
        forallb (fun o => negb (writes_through (address l) o)) os = true ->
        objects s' !! l = Some (ObjTestClass c)).
Proof.
  intros V.
  assert (G : exists s',
    perform_all os s = Ok tt s' /\ same_shape s s' /\
    (forall (l : loc) c, objects s !! l = Some (ObjTestClass c) ->
        forallb (fun o => negb (writes_through (address l) o)) os = true ->
        objects s' !! l = Some (ObjTestClass c))).
  { revert s V. induction os as [|o os IH]; intros s V; cbn [perform_all forallb] in *.
    - exists s. split; [reflexivity|]. split; [apply same_shape_refl | auto].
    - apply andb_true_iff in V as [Vo Vos].
      destruct (perform_well_formed o s Vo) as (s1 & E & Sh1 & C1).
      assert (Vos1 : forallb (well_formed s1) os = true).
      { rewrite <- Vos. apply forallb_pointwise. intros x.
        apply (well_formed_same_shape _ _ _ Sh1). }
      destruct (IH s1 Vos1) as (s' & R & Sh2 & C2).
      exists s'. unfold bind. rewrite E. split; [exact R|].
      split; [exact (same_shape_trans _ _ _ Sh1 Sh2)|].
      intros l c Hc W. apply andb_true_iff in W as [Wo Wos].
      apply negb_true_iff in Wo. apply C2; [|exact Wos]. now apply C1. }
  destruct G as (s' & R & Sh & C). exists s'. split; [exact R|].
  split; [exact (same_shape_length _ _ Sh)|].
  assert (K : forall (l : loc) o, objects s !! l = Some o ->
      exists o', objects s' !! l = Some o' /\ same_kind o o' = true).
  { intros l o H. specialize (Sh l). rewrite H in Sh.
    destruct (objects s' !! l) as [o'|]; [eauto | contradiction]. }
  split; [exact K|]. split; [|exact C].
  intros l str H. destruct (K l _ H) as (o' & -> & S).
  now rewrite (same_kind_chars _ _ S).
Qed.

Lemma calls_keep_the_store_shape_witness :
  forallb (well_formed one_of_each) sample_calls = true /\
  exists s',
    perform_all sample_calls one_of_each = Ok tt s' /\
    length (objects s') = 3%nat /\
    objects s' !! 2%nat = Some (ObjTestClass (mkTestClass 65536)).
Proof.
  split; [reflexivity|].
  destruct (calls_keep_the_store_shape sample_calls one_of_each eq_refl)
    as (s' & E & L & _ & _ & C).
  exists s'. split; [exact E|]. split; [exact L|].
  exact (C 2%nat _ eq_refl eq_refl).
Defined.

(** What one call from outside does to the log, when it returns. *)
Lemma perform_effect o s s' :
  perform o s = Ok tt s' ->
  logcat s' = logcat s ++ lines_of o /\
  calls s' = calls s ++ calls_of o.
Proof.
  destruct o as [a b|data|input_str out_val|this multiplier| |];
    cbn [perform lines_of calls_of]; rewrite ?app_nil_r.
  - intros [= <-]. auto.
  - intros E. now apply test_struct_by_pointer_shape in E.
  - unfold bind.
    destruct (test_pointer_args input_str out_val s) as [r s1|] eqn:E;
      [|discriminate].
    intros [= <-]. now apply test_pointer_args_inv in E.
  - unfold bind.
    destruct (instance_method this multiplier s) as [r s1|] eqn:E;
      [|discriminate].
    intros [= <-]. apply instance_method_inv in E as ->. auto.
  - intros [= <-]. auto.
  - rewrite run_all_tests_eq. intros [= <-]. auto.
Qed.

Lemma perform_all_effect os s s' :
  perform_all os s = Ok tt s' ->
  logcat s' = logcat s ++ concat (map lines_of os) /\
  calls s' = calls s ++ concat (map calls_of os).
Proof.
  revert s. induction os as [|o os IH]; intros s; cbn [perform_all map concat].
  - intros [= <-]. rewrite !app_nil_r. auto.
  - unfold bind. destruct (perform o s) as [[] s1|] eqn:E; [|discriminate].
    intros R. apply perform_effect in E as (L1 & C1).
    apply IH in R as (L2 & C2).
    rewrite L2, L1, C2, C1, <- !app_assoc. auto.
Qed.

(** X9: the probe surfaces are silent and the driver is stateless.  After
    any sequence of calls that returns, the log has grown by exactly one
    copy of the driver's fourteen lines per run of the driver, in order,
    and by nothing for a direct call of a surface; the record of entered
    surfaces has grown by the driver's five per run.  A run of the driver
    logs the same lines whatever was called before it. *)
Theorem calls_log_only_through_the_driver (os : list operation) (s s' : state) :
  perform_all os s = Ok tt s' ->
  logcat s' = logcat s ++ concat (map lines_of os) /\
  calls s' = calls s ++ concat (map calls_of os) /\
  length (logcat s')
  = (length (logcat s) + 14 * length (List.filter
       (fun o => match o with CallDriver => true | _ => false end) os))%nat.
Proof.
  intros R. apply perform_all_effect in R as (L & C).
  split; [exact L|]. split; [exact C|].
  rewrite L, length_app. f_equal.
  clear. induction os as [|o os IH]; [reflexivity|].
  cbn [map concat List.filter]. rewrite length_app, IH.
  destruct o; cbn [lines_of length]; try reflexivity.
  change (length driver_lines) with 14%nat. lia.
Qed.

Lemma calls_log_only_through_the_driver_witness :
  exists s',
    perform_all sample_calls one_of_each = Ok tt s' /\
    logcat s' = driver_lines ++ driver_lines /\
    calls s' = driver_calls ++ driver_calls.
Proof.
  destruct (perform_all sample_calls one_of_each) as [[] s'|] eqn:E;
    [|vm_compute in E; discriminate E].
  exists s'. split; [reflexivity|].
  destruct (calls_log_only_through_the_driver sample_calls one_of_each s' E)
    as (L & C & _).
  split; [exact L | exact C].
Defined.

(** ** The constructor *)


